(** * Informix database service: the JDBC subprocess bridge and the query cache

    A shallow embedding of [src/db/connection.js] (class [InformixConnection])
    and [src/services/DatabaseService.js] (class [DatabaseService]), with the
    parts of the JavaScript and Java languages their behaviour depends on
    ([String.prototype.trim], [String.prototype.includes], [JSON.parse],
    truthiness, the lexical grammar of a Java string literal).

    State is passed explicitly: the service object, the bridge singleton and
    the outside world (files, child processes started) make a [System]. What
    a call learns from outside (the clock, the exit status and output of its
    children) is an argument of the call. An [async] function is a function
    to a [promise] and the next state; a bridge call is also given stage by
    stage, so that the stages of several calls can alternate. *)

From Stdlib Require Import ZArith Ascii String List Bool Lia.
From stdpp Require Import base option gmap strings list pretty.

Set Warnings "-register-all".
Local Open Scope Z_scope.

(** ** JavaScript strings

    A JavaScript string is a sequence of code units. Program texts, statement
    texts and captured process output are modelled as [string], one [ascii]
    per code unit (code units below 256). The contents of a string decoded by
    [JSON.parse] may hold any 16-bit unit (through a [\uXXXX] escape) and are
    kept as [list N]. *)

Module JS.

Definition dq : ascii := "034"%char.
Definition bs : ascii := "092"%char.
Definition q : string := String dq "".

(** White space and line terminators stripped by [String.prototype.trim]
    (those with a code unit below 256: TAB, LF, VT, FF, CR, SP, NBSP). *)
Definition is_trim_space (c : ascii) : bool :=
  match c with
  | "009" | "010" | "011" | "012" | "013" | " " | "160" => true
  | _ => false
  end%char.

Fixpoint trimStart (s : string) : string :=
  match s with
  | String c r => if is_trim_space c then trimStart r else s
  | EmptyString => EmptyString
  end.

Definition trimEnd (s : string) : string :=
  String.rev (trimStart (String.rev s)).

Definition trim (s : string) : string := trimEnd (trimStart s).

(** [s.includes(needle)] *)
Fixpoint includes (s needle : string) : bool :=
  String.prefix needle s ||
  match s with
  | String _ r => includes r needle
  | EmptyString => false
  end.

(** [s.replace(/c/g, by)] for a one-character pattern [c] and a replacement
    text [by] free of [$] patterns. *)
Fixpoint replace_all (c : ascii) (by_ : string) (s : string) : string :=
  match s with
  | String a r =>
      if Ascii.eqb a c then by_ +:+ replace_all c by_ r
      else String a (replace_all c by_ r)
  | EmptyString => EmptyString
  end.

(** Texts that hold double quotes are written with an apostrophe standing
    for each of them (none of these texts holds an apostrophe of its own). *)
Definition dquoted (s : string) : string := replace_all "'" q s.

(** [x || y] on strings: the empty string is the only falsy one. *)
Definition str_or (x y : string) : string :=
  match x with EmptyString => y | _ => x end.

(** *** Values produced by [JSON.parse]

    A number keeps the decimal it was read from, [(-1)^neg * mant * 10^exp10];
    the binary64 value JavaScript rounds it to is not computed. Members of an
    object are kept in textual order. *)

Record number := Num { neg : bool; mant : N; exp10 : Z }.

Inductive value :=
| VNull
| VBool (b : bool)
| VNumber (n : number)
| VString (s : list N)
| VArray (l : list value)
| VObject (l : list (list N * value)).

Definition units (s : string) : list N :=
  map N_of_ascii (list_ascii_of_string s).

(** A decimal is rounded to (plus or minus) zero exactly when its magnitude is
    at most [2^-1075], half the least positive binary64 number (the tie goes
    to the even neighbour, zero). *)
Definition rounds_to_zero (n : number) : bool :=
  (mant n =? 0)%N ||
  ((exp10 n <? 0) && (Z.of_N (mant n) * 2 ^ 1075 <=? 10 ^ (- exp10 n))).

(** [ToBoolean]: what [if (v)] tests. *)
Definition truthy (v : value) : bool :=
  match v with
  | VNull => false
  | VBool b => b
  | VNumber n => negb (rounds_to_zero n)
  | VString s => match s with [] => false | _ => true end
  | VArray _ => true
  | VObject _ => true
  end.

(** *** [JSON.parse] (ECMA-404 grammar) *)

Definition is_json_ws (c : ascii) : bool :=
  match c with
  | "009" | "010" | "013" | " " => true
  | _ => false
  end%char.

Fixpoint skip_ws (s : string) : string :=
  match s with
  | String c r => if is_json_ws c then skip_ws r else s
  | EmptyString => EmptyString
  end.

(** The rest of [s] when it begins with [c]. *)
Definition starts_with (c : ascii) (s : string) : option string :=
  match s with
  | String a r => if Ascii.eqb a c then Some r else None
  | EmptyString => None
  end.

Definition digit_of (c : ascii) : option N :=
  let n := N_of_ascii c in
  if ((48 <=? n) && (n <=? 57))%N then Some (n - 48)%N else None.

Definition hex_of (c : ascii) : option N :=
  let n := N_of_ascii c in
  if ((48 <=? n) && (n <=? 57))%N then Some (n - 48)%N
  else if ((97 <=? n) && (n <=? 102))%N then Some (n - 87)%N
  else if ((65 <=? n) && (n <=? 70))%N then Some (n - 55)%N
  else None.

(** The longest run of decimal digits at the head of [s]: the number read
    (continuing [acc]), how many digits there were, and the rest. *)
Fixpoint read_digits (s : string) (acc : N) (count : nat) : N * nat * string :=
  match s with
  | String c r =>
      match digit_of c with
      | Some d => read_digits r (10 * acc + d)%N (S count)
      | None => (acc, count, s)
      end
  | EmptyString => (acc, count, s)
  end.

(** int: [0], or a non-zero digit followed by digits. *)
Definition read_int (s : string) : option (N * string) :=
  match s with
  | String c r =>
      match digit_of c with
      | Some d =>
          if (d =? 0)%N then Some (0%N, r)
          else let '(m, _, r') := read_digits r d 0 in Some (m, r')
      | None => None
      end
  | EmptyString => None
  end.

(** frac: nothing, or [.] and at least one digit. Returns the mantissa
    extended by the fraction digits and their count. *)
Definition read_frac (m : N) (s : string) : option (N * nat * string) :=
  match starts_with "." s with
  | Some r =>
      let '(m', k, r') := read_digits r m 0 in
      match k with O => None | _ => Some (m', k, r') end
  | None => Some (m, O, s)
  end.

(** exp: nothing, or [e] or [E], an optional sign and at least one digit. *)
Definition read_exp (s : string) : option (Z * string) :=
  match s with
  | String c r =>
      if Ascii.eqb c "e" || Ascii.eqb c "E" then
        let '(sign, r1) :=
          match starts_with "+" r with
          | Some r1 => (1, r1)
          | None =>
              match starts_with "-" r with
              | Some r1 => (-1, r1)
              | None => (1, r)
              end
          end in
        let '(e, k, r2) := read_digits r1 0 0 in
        match k with O => None | _ => Some (sign * Z.of_N e, r2) end
      else Some (0, s)
  | EmptyString => Some (0, s)
  end.

Definition read_number (s : string) : option (number * string) :=
  let '(sg, s1) :=
    match starts_with "-" s with
    | Some r => (true, r)
    | None => (false, s)
    end in
  '(i, s2) ← read_int s1;
  '(m, k, s3) ← read_frac i s2;
  '(e, s4) ← read_exp s3;
  Some (Num sg m (e - Z.of_nat k), s4).

(** The code unit a one-letter escape stands for. *)
Definition escape_unit (e : ascii) : option N :=
  if Ascii.eqb e dq then Some 34%N
  else if Ascii.eqb e bs then Some 92%N
  else match e with
       | "/" => Some 47 | "b" => Some 8 | "f" => Some 12
       | "n" => Some 10 | "r" => Some 13 | "t" => Some 9
       | _ => None
       end%char%N.

(** The characters of a string after its opening quote, up to and including
    the closing quote. Control characters (below U+0020) must be escaped. *)
Fixpoint read_string (s : string) : option (list N * string) :=
  match s with
  | EmptyString => None
  | String c r =>
      if Ascii.eqb c dq then Some ([], r)
      else if Ascii.eqb c bs then
        match r with
        | String e r' =>
            if Ascii.eqb e "u" then
              match r' with
              | String a (String b (String c' (String d r''))) =>
                  h3 ← hex_of a; h2 ← hex_of b; h1 ← hex_of c'; h0 ← hex_of d;
                  '(t, k) ← read_string r'';
                  Some ((4096 * h3 + 256 * h2 + 16 * h1 + h0)%N :: t, k)
              | _ => None
              end
            else
              u ← escape_unit e;
              '(t, k) ← read_string r';
              Some (u :: t, k)
        | EmptyString => None
        end
      else if (N_of_ascii c <? 32)%N then None
      else '(t, k) ← read_string r; Some (N_of_ascii c :: t, k)
  end.

(** [s] without its prefix [lit], when it has it. *)
Fixpoint strip_prefix (lit s : string) : option string :=
  match lit with
  | EmptyString => Some s
  | String a lit' =>
      match s with
      | String b s' => if Ascii.eqb a b then strip_prefix lit' s' else None
      | EmptyString => None
      end
  end.

Definition expect (lit : string) (v : value) (s : string)
    : option (value * string) :=
  k ← strip_prefix lit s; Some (v, k).

(** One level of each production, over the parsers for what is nested in
    it. *)
Definition value_step
    (elements : string → option (list value * string))
    (members : string → option (list (list N * value) * string))
    (s : string) : option (value * string) :=
  match skip_ws s with
  | EmptyString => None
  | String c r as s' =>
      if Ascii.eqb c dq then
        '(t, k) ← read_string r; Some (VString t, k)
      else if Ascii.eqb c "n" then expect "null" VNull s'
      else if Ascii.eqb c "t" then expect "true" (VBool true) s'
      else if Ascii.eqb c "f" then expect "false" (VBool false) s'
      else if Ascii.eqb c "[" then
        match starts_with "]" (skip_ws r) with
        | Some k => Some (VArray [], k)
        | None => '(l, k) ← elements (skip_ws r); Some (VArray l, k)
        end
      else if Ascii.eqb c "{" then
        match starts_with "}" (skip_ws r) with
        | Some k => Some (VObject [], k)
        | None => '(l, k) ← members (skip_ws r); Some (VObject l, k)
        end
      else '(n, k) ← read_number s'; Some (VNumber n, k)
  end.

Definition elements_step
    (val : string → option (value * string))
    (elements : string → option (list value * string))
    (s : string) : option (list value * string) :=
  '(v, k) ← val s;
  match starts_with "," (skip_ws k) with
  | Some k' => '(l, k'') ← elements k'; Some (v :: l, k'')
  | None =>
      match starts_with "]" (skip_ws k) with
      | Some k' => Some ([v], k')
      | None => None
      end
  end.

Definition members_step
    (val : string → option (value * string))
    (members : string → option (list (list N * value) * string))
    (s : string) : option (list (list N * value) * string) :=
  k0 ← starts_with dq (skip_ws s);
  '(name, k) ← read_string k0;
  k1 ← starts_with ":" (skip_ws k);
  '(v, k2) ← val k1;
  match starts_with "," (skip_ws k2) with
  | Some k3 => '(l, k4) ← members k3; Some ((name, v) :: l, k4)
  | None =>
      match starts_with "}" (skip_ws k2) with
      | Some k3 => Some ([(name, v)], k3)
      | None => None
      end
  end.

(** Recursive descent. [fuel] bounds the nesting of calls; a call for a text
    of [n] characters nests at most [2 * n + 1] deep. *)
Fixpoint parse_value (fuel : nat) (s : string) : option (value * string) :=
  match fuel with
  | O => None
  | S f => value_step (parse_elements f) (parse_members f) s
  end
with parse_elements (fuel : nat) (s : string) : option (list value * string) :=
  match fuel with
  | O => None
  | S f => elements_step (parse_value f) (parse_elements f) s
  end
with parse_members (fuel : nat) (s : string)
    : option (list (list N * value) * string) :=
  match fuel with
  | O => None
  | S f => members_step (parse_value f) (parse_members f) s
  end.

(** [JSON.parse(text)]: [None] stands for the [SyntaxError] it throws. *)
Definition JSON_parse (text : string) : option value :=
  '(v, k) ← parse_value (2 * String.length text + 1) text;
  match skip_ws k with
  | EmptyString => Some v
  | _ => None
  end.

End JS.

(** ** The lexical grammar of a Java string literal (JLS 3.10.5, Java SE 11)

    The generated program is handed to [javac]; whether the embedded statement
    is one well-formed string literal is decided by this grammar. A literal is
    a quote, string characters and a quote; a string character is any input
    character except a quote, a backslash, CR and LF, or an escape sequence.
    Octal escapes and Unicode escapes (JLS 3.3) are not modelled: a text that
    holds one is reported as [Unsupported]. *)

Module Java.

Inductive lexed :=
| Literal (contents rest : string)
| Malformed
| Unsupported.

Definition escape_sequence (e : ascii) : option (option ascii) :=
  if Ascii.eqb e JS.dq then Some (Some JS.dq)
  else if Ascii.eqb e JS.bs then Some (Some JS.bs)
  else match e with
       | "b" => Some (Some "008") | "t" => Some (Some "009")
       | "n" => Some (Some "010") | "f" => Some (Some "012")
       | "r" => Some (Some "013") | "'" => Some (Some "'")
       | "u" | "0" | "1" | "2" | "3" | "4" | "5" | "6" | "7" => Some None
       | _ => None
       end%char.

Definition cons_contents (c : ascii) (l : lexed) : lexed :=
  match l with
  | Literal t k => Literal (String c t) k
  | other => other
  end.

(** The text after the opening quote. *)
Fixpoint string_characters (s : string) : lexed :=
  match s with
  | EmptyString => Malformed
  | String c r =>
      if Ascii.eqb c JS.dq then Literal "" r
      else if Ascii.eqb c "010" || Ascii.eqb c "013" then Malformed
      else if Ascii.eqb c JS.bs then
        match r with
        | String e r' =>
            match escape_sequence e with
            | Some (Some x) => cons_contents x (string_characters r')
            | Some None => Unsupported
            | None => Malformed
            end
        | EmptyString => Malformed
        end
      else cons_contents c (string_characters r)
  end.

Definition string_literal (s : string) : lexed :=
  match s with
  | String c r => if Ascii.eqb c JS.dq then string_characters r else Malformed
  | EmptyString => Malformed
  end.

End Java.

Import JS.

(** ** Results of asynchronous calls

    An [async] function ends by resolving with a value or by rejecting with
    an error. A [ServiceError] carries, besides its message, the message of
    the error it wraps ([details]) and a code; its ISO timestamp is left
    out. *)

Inductive jserror :=
| Error (message : string)
| ServiceError (message details code : string).

Definition message_of (e : jserror) : string :=
  match e with
  | Error m => m
  | ServiceError m _ _ => m
  end.

Inductive promise (A : Type) :=
| Resolve (a : A)
| Reject (e : jserror).
Arguments Resolve {A} a.
Arguments Reject {A} e.

(** The value of [x.length > 0 ? x[0] : null] for a value [x] that
    [JSON.parse] produced. An array or a string gives its first element or
    [null]; a boolean or a number has no [length] and gives [null]; so does
    an object without a member of that name. Reading a property of [null]
    throws a [TypeError]. An object with a member named [length] is not
    followed (the comparison coerces the member, and member [0] may be
    missing). *)
Inductive first :=
| First (v : value)
| FirstThrows
| FirstUnmodelled.

Definition has_member (name : string) (l : list (list N * value)) : bool :=
  existsb (λ m, bool_decide (m.1 = units name)) l.

Definition first_or_null (x : value) : first :=
  match x with
  | VArray (v :: _) => First v
  | VArray [] => First VNull
  | VString (u :: _) => First (VString [u])
  | VString [] => First VNull
  | VNull => FirstThrows
  | VBool _ | VNumber _ => First VNull
  | VObject l => if has_member "length" l then FirstUnmodelled else First VNull
  end.

(** The message of the [TypeError] (Node.js 18). *)
Definition null_length_message : string :=
  "Cannot read properties of null (reading 'length')".

(** ** The host: configuration, file system and child processes *)

(** [config] of [src/config/database.js], the fields the bridge reads. *)
Record Config := {
  host : string;
  port : Z;
  database : string;
  server : string;
  user : string;
  password : string
}.

(** What does not change during a run of the service: the configuration,
    [os.tmpdir()], the [JDBC_JAR] path and [path.delimiter]. *)
Record Host := {
  config : Config;
  tempDir : string;
  JDBC_JAR : string;
  delimiter : string
}.

(** [path.join(dir, name)] for a directory without a trailing separator. *)
Definition path_join (dir name : string) : string := dir +:+ "/" +:+ name.

(** What a child process did by the time its [close] event fires: the exit
    status (a child killed by a signal reports [null], which the bridge treats
    as any status other than 0), and the text gathered from its streams. *)
Record Child := {
  code : Z;
  stdout : string;
  stderr : string
}.

(** The two children of one bridge call. *)
Record Run := {
  javac : Child;
  java : Child
}.

(** A file is a text, or a class file, which is represented by the source
    text it was compiled from. *)
Inductive file :=
| Text (contents : string)
| Class (source : string).

(** The part of the outside world the bridge changes: the files that exist,
    and the child processes started so far (latest first). *)
Record World := {
  fs : gmap string file;
  spawned : list (string * list string)
}.

(** [fs.writeFileSync(p, data)], in a directory that can be written. *)
Definition writeFileSync (p data : string) (w : World) : World :=
  {| fs := <[p := Text data]> (fs w); spawned := spawned w |}.

(** [fs.unlinkSync(p)]; [None] when it throws because [p] does not exist. *)
Definition unlinkSync (p : string) (w : World) : option World :=
  match fs w !! p with
  | Some _ => Some {| fs := delete p (fs w); spawned := spawned w |}
  | None => None
  end.

Definition spawn (cmd : string) (args : list string) (w : World) : World :=
  {| fs := fs w; spawned := (cmd, args) :: spawned w |}.

(** What [javac] leaves behind: the class file next to the source when, and
    only when, it exits with status 0 (and the source was there to read). *)
Definition compiled (c : Child) (javaFile classFile : string) (w : World)
    : World :=
  match fs w !! javaFile with
  | Some (Text src) =>
      if code c =? 0
      then {| fs := <[classFile := Class src]> (fs w); spawned := spawned w |}
      else w
  | _ => w
  end.

(** [try { unlinkSync(javaFile); unlinkSync(classFile) } catch {}] *)
Definition cleanup (javaFile classFile : string) (w : World) : World :=
  match unlinkSync javaFile w with
  | Some w1 =>
      match unlinkSync classFile w1 with
      | Some w2 => w2
      | None => w1
      end
  | None => w
  end.

(** ** [InformixConnection] (src/db/connection.js) *)

Record InformixConnection := {
  isInitialized : bool;
  jdbcUrl : option string
}.

Module Connection.

Definition constructor : InformixConnection :=
  {| isInitialized := false; jdbcUrl := None |}.

Definition buildJdbcUrl (h : Host) : string :=
  let c := config h in
  "jdbc:informix-sqli://" +:+ host c +:+ ":" +:+ pretty (port c) +:+ "/"
    +:+ database c +:+ ":INFORMIXSERVER=" +:+ server c.

(** [sql.replace(/\\/g, '\\\\').replace(/"/g, '\\"')] *)
Definition escapeSql (sql : string) : string :=
  replace_all dq (String bs q) (replace_all bs (String bs (String bs "")) sql).

(** A template renders [null] as the text [null]. *)
Definition render (s : option string) : string := default "null" s.

Definition connect_text (db : InformixConnection) (h : Host) : string :=
  dquoted "            Class.forName('com.informix.jdbc.IfxDriver');
            Connection conn = DriverManager.getConnection(
                '" +:+ render (jdbcUrl db) +:+ dquoted "',
                '" +:+ user (config h) +:+ dquoted "',
                '" +:+ password (config h) +:+ dquoted "'
            );
            Statement stmt = conn.createStatement();
".

Definition simpleQuery_head (db : InformixConnection) (h : Host) : string :=
  "
import java.sql.*;

public class InformixQuery {
    public static void main(String[] args) {
        try {
" +:+ connect_text db h +:+
  "            ResultSet rs = stmt.executeQuery(".

Definition simpleQuery_tail : string :=
  dquoted ");
            ResultSetMetaData meta = rs.getMetaData();
            int cols = meta.getColumnCount();
            StringBuilder sb = new StringBuilder('[');
            boolean first = true;
            while (rs.next()) {
                if (!first) sb.append(',');
                first = false;
                sb.append('{');
                for (int i = 1; i <= cols; i++) {
                    if (i > 1) sb.append(',');
                    String name = meta.getColumnName(i);
                    String val = rs.getString(i);
                    sb.append('\'').append(name).append('\':');
                    if (val == null) {
                        sb.append('null');
                    } else {
                        sb.append('\'').append(val.replace('\\', '\\\\').replace('\'', '\\\'')).append('\'');
                    }
                }
                sb.append('}');
            }
            sb.append(']');
            System.out.println(sb.toString());
            rs.close();
            stmt.close();
            conn.close();
        } catch (Exception e) {
            System.err.println('ERROR: ' + e.getMessage());
            System.exit(1);
        }
    }
}
".

Definition execute_head (db : InformixConnection) (h : Host) : string :=
  "
import java.sql.*;

public class InformixExecute {
    public static void main(String[] args) {
        try {
" +:+ connect_text db h +:+
  "            int rowsAffected = stmt.executeUpdate(".

Definition execute_tail : string :=
  dquoted ");
            System.out.println('{\'rowsAffected\':' + rowsAffected + ',\'success\':true}');
            stmt.close();
            conn.close();
        } catch (Exception e) {
            System.err.println('ERROR: ' + e.getMessage());
            System.exit(1);
        }
    }
}
".

(** The statement is embedded between two quotes. *)
Definition embed (head sql tail : string) : string :=
  head +:+ q +:+ escapeSql sql +:+ q +:+ tail.

(** *** Ephemeral artifacts

    [path.join(tempDir, 'InformixQuery.java')] and its class file for
    [simpleQuery]; [InformixExecute] for [execute]. *)

Inductive BridgeOp := SimpleQuery | Execute.

Definition className (op : BridgeOp) : string :=
  match op with
  | SimpleQuery => "InformixQuery"
  | Execute => "InformixExecute"
  end.

Definition javaFile (h : Host) (op : BridgeOp) : string :=
  path_join (tempDir h) (className op +:+ ".java").

Definition classFile (h : Host) (op : BridgeOp) : string :=
  path_join (tempDir h) (className op +:+ ".class").

Definition javaCode (db : InformixConnection) (h : Host) (op : BridgeOp)
    (sql : string) : string :=
  match op with
  | SimpleQuery => embed (simpleQuery_head db h) sql simpleQuery_tail
  | Execute => embed (execute_head db h) sql execute_tail
  end.

(** *** The three stages of a bridge call

    A call runs in three stages separated by the [close] events of its two
    children; other calls may run between them. *)

(** Up to the first suspension: the source is written and [javac] started. *)
Definition started (db : InformixConnection) (h : Host) (op : BridgeOp)
    (sql : string) (w : World) : World :=
  spawn "javac" ["-cp"; JDBC_JAR h; javaFile h op]
    (writeFileSync (javaFile h op) (javaCode db h op sql) w).

(** [compile.on('close')]: a failed compilation rejects at once; otherwise
    the program is started. *)
Definition compile_closed (h : Host) (op : BridgeOp) (c : Child) (w : World)
    : option jserror * World :=
  let w1 := compiled c (javaFile h op) (classFile h op) w in
  if negb (code c =? 0)
  then (Some (Error ("Compilation failed: " +:+ stderr c)), w1)
  else (None,
        spawn "java"
          ["-cp"; JDBC_JAR h +:+ delimiter h +:+ tempDir h; className op] w1).

(** The value an empty output stands for, as a text and as the object literal
    [{ rowsAffected: 0, success: true }]. *)
Definition execute_default_text : string :=
  dquoted "{'rowsAffected':0,'success':true}".

Definition execute_default : value :=
  VObject [ (units "rowsAffected", VNumber (Num false 0 0));
            (units "success", VBool true) ].

(** [run.on('close')] of [simpleQuery]. *)
Definition simpleQuery_closed (h : Host) (c : Child) (w : World)
    : promise value * World :=
  let w1 := cleanup (javaFile h SimpleQuery) (classFile h SimpleQuery) w in
  if negb (code c =? 0) || includes (stderr c) "ERROR:"
  then (Reject (Error (str_or (stderr c) "Query failed")), w1)
  else match JSON_parse (str_or (trim (stdout c)) "[]") with
       | Some v => (Resolve v, w1)
       | None => (Reject (Error "Failed to parse results"), w1)
       end.

(** [run.on('close')] of [execute]. *)
Definition execute_closed (h : Host) (c : Child) (w : World)
    : promise value * World :=
  let w1 := cleanup (javaFile h Execute) (classFile h Execute) w in
  if negb (code c =? 0) || includes (stderr c) "ERROR:"
  then (Reject (Error (str_or (stderr c) "Execute failed")), w1)
  else match JSON_parse (str_or (trim (stdout c)) execute_default_text) with
       | Some v => (Resolve v, w1)
       | None => (Resolve execute_default, w1)
       end.

(** [simpleQuery(sql)], run without interruption; [r] is what its two
    children do. *)
Definition simpleQuery (db : InformixConnection) (h : Host) (sql : string)
    (r : Run) (w : World) : promise value * World :=
  match compile_closed h SimpleQuery (javac r) (started db h SimpleQuery sql w) with
  | (Some e, w') => (Reject e, w')
  | (None, w') => simpleQuery_closed h (java r) w'
  end.

(** [execute(sql)], run without interruption. *)
Definition execute (db : InformixConnection) (h : Host) (sql : string)
    (r : Run) (w : World) : promise value * World :=
  match compile_closed h Execute (javac r) (started db h Execute sql w) with
  | (Some e, w') => (Reject e, w')
  | (None, w') => execute_closed h (java r) w'
  end.

(** One stage of a call, for runs in which the stages of several calls
    alternate. *)
Inductive stage :=
| Start (sql : string)
| CompileClose (c : Child)
| RunClose (c : Child).

Definition step (db : InformixConnection) (h : Host) (op : BridgeOp)
    (st : stage) (w : World) : World :=
  match st with
  | Start sql => started db h op sql w
  | CompileClose c => (compile_closed h op c w).2
  | RunClose c =>
      match op with
      | SimpleQuery => (simpleQuery_closed h c w).2
      | Execute => (execute_closed h c w).2
      end
  end.

(** *** Initialisation *)

(** What [initialize] finds: whether [java -version] runs, and what the
    children of the test query do. *)
Record InitEnv := {
  java_found : bool;
  test_run : Run
}.

Definition testConnection (db : InformixConnection) (h : Host) (r : Run)
    (w : World) : promise bool * World :=
  match simpleQuery db h "SELECT FIRST 1 1 FROM systables" r w with
  | (Resolve _, w') => (Resolve true, w')
  | (Reject e, w') =>
      (Reject (Error ("Connection test failed: " +:+ message_of e)), w')
  end.

Definition initialize (db : InformixConnection) (h : Host) (e : InitEnv)
    (w : World) : promise unit * InformixConnection * World :=
  if isInitialized db then (Resolve tt, db, w)
  else
    let db1 := {| isInitialized := false;
                  jdbcUrl := Some (buildJdbcUrl h) |} in
    let w1 := spawn "java -version" [] w in
    if negb (java_found e)
    then (Reject (Error "Java is not installed or not in PATH"), db1, w1)
    else match testConnection db1 h (test_run e) w1 with
         | (Resolve _, w2) =>
             (Resolve tt,
              {| isInitialized := true; jdbcUrl := jdbcUrl db1 |}, w2)
         | (Reject err, w2) => (Reject err, db1, w2)
         end.

Definition close (db : InformixConnection) : InformixConnection :=
  {| isInitialized := false; jdbcUrl := jdbcUrl db |}.

(** *** The other ways to run a query *)

(** [generateJavaQueryCode(sql, params)] *)
Definition generateJavaQueryCode (sql params : string) : string := "".

(** [query(sql, params)], for a child that could be started: the generated
    code (the empty text) is written to its standard input, and the statement
    reaches the child in no other way. [c] is what the child did. *)
Definition query (h : Host) (sql params : string) (c : Child) (w : World)
    : promise value * World :=
  let javaCode := generateJavaQueryCode sql params in
  let w1 := spawn "java" ["-cp"; JDBC_JAR h; "InformixQuery"] w in
  if negb (code c =? 0)
  then (Reject (Error ("Query failed: " +:+ str_or (stderr c) "Unknown error")),
        w1)
  else match JSON_parse (str_or (stdout c) "[]") with
       | Some v => (Resolve v, w1)
       | None => (Resolve (VArray []), w1)
       end.

(** [queryOne(sql, params)]; [None] when the rows are an object that
    [first_or_null] does not follow. *)
Definition queryOne (db : InformixConnection) (h : Host) (sql : string)
    (r : Run) (w : World) : option (promise value * World) :=
  match simpleQuery db h sql r w with
  | (Resolve results, w') =>
      match first_or_null results with
      | First v => Some (Resolve v, w')
      | FirstThrows => Some (Reject (Error null_length_message), w')
      | FirstUnmodelled => None
      end
  | (Reject e, w') => Some (Reject e, w')
  end.

End Connection.

(** ** [DatabaseService] (src/services/DatabaseService.js) *)

Record CacheEntry := {
  data : value;
  timestamp : Z
}.

Record DatabaseService := {
  cache : gmap string CacheEntry;
  cacheTimeout : Z;
  initialized : bool
}.

(** The service, the bridge singleton it requires, and the outside world. *)
Record System := {
  service : DatabaseService;
  db : InformixConnection;
  world : World
}.

(** The [options] argument of [query]; [None] is an absent property, for
    which the destructuring default applies. *)
Record Options := {
  useCache : option bool;
  cacheTtl : option Z
}.

(** The object [{ data, fromCache }]; [rows] is its [data] property. *)
Record QueryResult := {
  rows : value;
  fromCache : bool
}.

Record ExecuteResult := {
  success : bool;
  result : value
}.

(** The object [{ success: true, results }] of [transaction]. *)
Record TransactionResult := {
  t_success : bool;
  results : list value
}.


(** The object of [getStats]. *)
Record Stats := {
  stats_initialized : bool;
  cacheSize : nat;
  stats_cacheTimeout : Z
}.

Module Service.

Definition constructor : DatabaseService :=
  {| cache := ∅; cacheTimeout := 60000; initialized := false |}.

Definition set_cache (m : gmap string CacheEntry) (s : DatabaseService)
    : DatabaseService :=
  {| cache := m; cacheTimeout := cacheTimeout s; initialized := initialized s |}.

(** The parameter array enters the service only through
    [JSON.stringify(params)]; [params] is that text ([[]] by default). *)
Definition _getCacheKey (sql params : string) : string :=
  sql +:+ ":" +:+ params.

(** [now] is the reading of [Date.now()]. The entry object is truthy whenever
    there is one. *)
Definition _getFromCache (now : Z) (key : string) (s : DatabaseService)
    : value * DatabaseService :=
  match cache s !! key with
  | Some cached =>
      if now - timestamp cached <? cacheTimeout s
      then (data cached, s)
      else (VNull, set_cache (delete key (cache s)) s)
  | None => (VNull, set_cache (delete key (cache s)) s)
  end.

Definition _setCache (now : Z) (key : string) (d : value)
    (s : DatabaseService) : DatabaseService :=
  set_cache (<[key := {| data := d; timestamp := now |}]> (cache s)) s.

(** [clearCache(key = null)]: [if (key)] fails for [null] and for the empty
    string alike. *)
Definition clearCache (key : option string) (s : DatabaseService)
    : DatabaseService :=
  match key with
  | Some (String _ _ as k) => set_cache (delete k (cache s)) s
  | _ => set_cache ∅ s
  end.

Section Calls.
Context (h : Host).

Definition init (e : Connection.InitEnv) (s : System)
    : promise unit * System :=
  if initialized (service s) then (Resolve tt, s)
  else match Connection.initialize (db s) h e (world s) with
       | (Resolve _, db', w') =>
           (Resolve tt,
            {| service := {| cache := cache (service s);
                             cacheTimeout := cacheTimeout (service s);
                             initialized := true |};
               db := db'; world := w' |})
       | (Reject err, db', w') =>
           (Reject err, {| service := service s; db := db'; world := w' |})
       end.

(** What one call of [query] or [execute] meets, in the order it asks: the
    initialisation, the clock at the cache lookup, the children of its bridge
    call, the clock when the result is stored. *)
Record CallEnv := {
  at_init : Connection.InitEnv;
  now_get : Z;
  run : Run;
  now_set : Z
}.

(** [query(sql, params, options)], run without interruption. The
    destructured [cacheTtl] is bound and never read. *)
Definition query (e : CallEnv) (sql params : string) (options : Options)
    (s : System) : promise QueryResult * System :=
  match init (at_init e) s with
  | (Reject err, s1) => (Reject err, s1)
  | (Resolve _, s1) =>
      let useCache := default true (useCache options) in
      let cacheTtl := default (cacheTimeout (service s1)) (cacheTtl options) in
      let cacheKey := _getCacheKey sql params in
      let '(cached, svc) :=
        if useCache then _getFromCache (now_get e) cacheKey (service s1)
        else (VNull, service s1) in
      if useCache && truthy cached
      then (Resolve {| rows := cached; fromCache := true |},
            {| service := svc; db := db s1; world := world s1 |})
      else
        match Connection.simpleQuery (db s1) h sql (run e) (world s1) with
        | (Resolve d, w') =>
            (Resolve {| rows := d; fromCache := false |},
             {| service := if useCache
                           then _setCache (now_set e) cacheKey d svc
                           else svc;
                db := db s1; world := w' |})
        | (Reject err, w') =>
            (Reject (ServiceError "Query failed" (message_of err) "QUERY_ERROR"),
             {| service := svc; db := db s1; world := w' |})
        end
  end.

(** [execute(sql)], run without interruption. *)
Definition execute (e : CallEnv) (sql : string) (s : System)
    : promise ExecuteResult * System :=
  match init (at_init e) s with
  | (Reject err, s1) => (Reject err, s1)
  | (Resolve _, s1) =>
      match Connection.execute (db s1) h sql (run e) (world s1) with
      | (Resolve r, w') =>
          (Resolve {| success := true; result := r |},
           {| service := clearCache None (service s1);
              db := db s1; world := w' |})
      | (Reject err, w') =>
          (Reject
             (ServiceError "Execute failed" (message_of err) "EXECUTE_ERROR"),
           {| service := service s1; db := db s1; world := w' |})
      end
  end.

(** Calls of [query] for one statement, one after the other. *)
Fixpoint queries (calls : list (CallEnv * Options)) (sql params : string)
    (s : System) : list (promise QueryResult) * System :=
  match calls with
  | [] => ([], s)
  | (e, o) :: rest =>
      let '(r, s1) := query e sql params o s in
      let '(rs, s2) := queries rest sql params s1 in
      (r :: rs, s2)
  end.

(** [queryOne(sql, params, options)]; [None] when the rows are an object
    that [first_or_null] does not follow. A [TypeError] is thrown outside
    any [try] and is not wrapped. *)
Definition queryOne (e : CallEnv) (sql params : string) (options : Options)
    (s : System) : option (promise QueryResult * System) :=
  match query e sql params options s with
  | (Resolve r, s1) =>
      match first_or_null (rows r) with
      | First v => Some (Resolve {| rows := v; fromCache := fromCache r |}, s1)
      | FirstThrows => Some (Reject (Error null_length_message), s1)
      | FirstUnmodelled => None
      end
  | (Reject err, s1) => Some (Reject err, s1)
  end.

(** The loop of [transaction]: the statements are run one after the other
    through [simpleQuery] (their [params] are not read), each result is pushed
    onto [results], and the first error leaves the loop. [runs i] is what the
    children of statement [i] do. *)
Fixpoint transaction_loop (conn : InformixConnection) (runs : nat → Run)
    (i : nat) (queries : list (string * string)) (results : list value)
    (w : World) : promise (list value) * World :=
  match queries with
  | [] => (Resolve results, w)
  | (sql, params) :: rest =>
      match Connection.simpleQuery conn h sql (runs i) w with
      | (Resolve r, w') =>
          transaction_loop conn runs (S i) rest (results ++ [r]) w'
      | (Reject err, w') => (Reject err, w')
      end
  end.

(** [transaction(queries)], run without interruption. *)
Definition transaction (e : Connection.InitEnv) (runs : nat → Run)
    (queries : list (string * string)) (s : System)
    : promise TransactionResult * System :=
  match init e s with
  | (Reject err, s1) => (Reject err, s1)
  | (Resolve _, s1) =>
      match transaction_loop (db s1) runs 0 queries [] (world s1) with
      | (Resolve results, w') =>
          (Resolve {| t_success := true; results := results |},
           {| service := clearCache None (service s1);
              db := db s1; world := w' |})
      | (Reject err, w') =>
          (Reject (ServiceError "Transaction failed" (message_of err)
                     "TRANSACTION_ERROR"),
           {| service := service s1; db := db s1; world := w' |})
      end
  end.


End Calls.

(** The bridge calls made so far: each starts [javac] exactly once. *)
Definition bridge_calls (w : World) : nat :=
  length (filter (λ p, p.1 = "javac") (spawned w)).


(** [getStats()] *)
Definition getStats (s : DatabaseService) : Stats :=
  {| stats_initialized := initialized s;
     cacheSize := size (cache s);
     stats_cacheTimeout := cacheTimeout s |}.

(** [shutdown()] *)
Definition shutdown (s : System) : System :=
  {| service := {| cache := ∅; cacheTimeout := cacheTimeout (service s);
                   initialized := false |};
     db := Connection.close (db s);
     world := world s |}.

End Service.

(** ** Statements sent by the HTTP layer (src/routes/api.js) *)

Module Routes.

Definition nl : string := String "010" "".

(** The statement of [GET /tables/:tableName/columns], a template literal
    that runs over four lines. *)
Definition columns_statement (tableName : string) : string :=
  "SELECT c.colname, c.coltype, c.collength " +:+ nl +:+
  "       FROM syscolumns c, systables t " +:+ nl +:+
  "       WHERE c.tabid = t.tabid AND t.tabname = '" +:+ tableName +:+ "' "
    +:+ nl +:+
  "       ORDER BY c.colno".


(** *** Guards of the statement routes *)

(** [s.toUpperCase()], as code units. Of the code units below 256, the
    letters [a] to [z] and the accented letters U+00E0 to U+00FE (but for the
    division sign U+00F7) move down by 32; the micro sign gives U+039C, the
    sharp s gives two letters [S], and y with diaeresis gives U+0178. *)
Definition upper_units (c : ascii) : list N :=
  let n := N_of_ascii c in
  if ((97 <=? n) && (n <=? 122))%N then [n - 32]%N
  else if (n =? 181)%N then [924]%N
  else if (n =? 223)%N then [83; 83]%N
  else if ((224 <=? n) && (n <=? 254) && negb (n =? 247))%N then [n - 32]%N
  else if (n =? 255)%N then [376]%N
  else [n].

Fixpoint toUpperCase (s : string) : list N :=
  match s with
  | EmptyString => []
  | String c r => upper_units c ++ toUpperCase r
  end.

(** [x.startsWith(word)] on code units. *)
Fixpoint startsWith (x word : list N) : bool :=
  match word, x with
  | [], _ => true
  | a :: word', b :: x' => (a =? b)%N && startsWith x' word'
  | _ :: _, [] => false
  end.

(** [sql.trim().toUpperCase()] *)
Definition trimmedSql (sql : string) : list N := toUpperCase (trim sql).

(** The test of [POST /query]: [trimmedSql.startsWith('SELECT')]. *)
Definition select_only (sql : string) : bool :=
  startsWith (trimmedSql sql) (units "SELECT").

(** The test of [POST /execute]:
    [allowedOperations.find(op => trimmedSql.startsWith(op))]. *)
Definition allowedOperations : list string := ["INSERT"; "UPDATE"; "DELETE"].

Definition operation (sql : string) : option string :=
  find (λ op, startsWith (trimmedSql sql) (units op)) allowedOperations.

(** *** The data routes *)

(** [/^[a-zA-Z_][a-zA-Z0-9_]*$/.test(name)] *)
Definition is_name_start (c : ascii) : bool :=
  let n := N_of_ascii c in
  ((65 <=? n) && (n <=? 90) || (97 <=? n) && (n <=? 122) || (n =? 95))%N.

Definition is_name_char (c : ascii) : bool :=
  let n := N_of_ascii c in
  is_name_start c || ((48 <=? n) && (n <=? 57))%N.

Fixpoint all_chars (p : ascii → bool) (s : string) : bool :=
  match s with
  | EmptyString => true
  | String c r => p c && all_chars p r
  end.

Definition is_identifier (name : string) : bool :=
  match name with
  | EmptyString => false
  | String c r => is_name_start c && all_chars is_name_char r
  end.

(** A column value of a request body: [null], a number, or a text. The
    numbers are the integers of magnitude below [2^53], which JavaScript
    holds exactly and renders in plain decimal. Booleans, arrays, objects and
    the other numbers are left out. *)
Inductive field :=
| FNull
| FNumber (n : Z)
| FText (s : string).

(** [`'${String(val).replace(/'/g, "''")}'`] *)
Definition quote_text (s : string) : string :=
  "'" +:+ replace_all "'" "''" s +:+ "'".

(** [list.join(sep)] *)
Fixpoint join (sep : string) (l : list string) : string :=
  match l with
  | [] => ""
  | [x] => x
  | x :: rest => x +:+ sep +:+ join sep rest
  end.

(** An element of [values] in the insert route. *)
Definition insert_value (v : field) : string :=
  match v with
  | FNull => "NULL"
  | FNumber n => pretty n
  | FText s => quote_text s
  end.

(** An element of the [SET] clause. *)
Definition set_item (m : string * field) : string :=
  match m.2 with
  | FNull => m.1 +:+ " = NULL"
  | FNumber n => m.1 +:+ " = " +:+ pretty n
  | FText s => m.1 +:+ " = " +:+ quote_text s
  end.

(** An element of the [WHERE] clause. *)
Definition where_item (m : string * field) : string :=
  match m.2 with
  | FNull => m.1 +:+ " IS NULL"
  | FNumber n => m.1 +:+ " = " +:+ pretty n
  | FText s => m.1 +:+ " = " +:+ quote_text s
  end.

Definition whereClause (where_ : list (string * field)) : string :=
  join " AND " (map where_item where_).

Definition insert_sql (tableName : string) (data : list (string * field))
    : string :=
  "INSERT INTO " +:+ tableName +:+ " (" +:+ join ", " (map fst data)
    +:+ ") VALUES (" +:+ join ", " (map (λ m, insert_value m.2) data) +:+ ")".

Definition update_sql (tableName : string) (data where_ : list (string * field))
    : string :=
  "UPDATE " +:+ tableName +:+ " SET " +:+ join ", " (map set_item data)
    +:+ " WHERE " +:+ whereClause where_.

Definition delete_sql (tableName : string) (where_ : list (string * field))
    : string :=
  "DELETE FROM " +:+ tableName +:+ " WHERE " +:+ whereClause where_.

(** A response: its status and its JSON body, which holds either [error] and
    [code], or [success: true] with [message] and [table]. *)
Inductive body :=
| ErrorBody (error code : string)
| DoneBody (message table : string).

Record response := {
  status : Z;
  content : body
}.

(** The first column name, in the order of [Object.keys], that fails the
    test. *)
Definition invalid_column (members : list (string * field)) : option string :=
  find (λ col, negb (is_identifier col)) (map fst members).

(** What the handlers do with the outcome of [dbService.execute(sql)]: the
    [catch] reads [error.message] only. *)
Definition answered (ok_status : Z) (message table code : string)
    (r : promise ExecuteResult * System) : response * System :=
  match r with
  | (Resolve _, s1) =>
      ({| status := ok_status; content := DoneBody message table |}, s1)
  | (Reject err, s1) =>
      ({| status := 500; content := ErrorBody (message_of err) code |}, s1)
  end.

(** [POST /data/:tableName]. [data] holds the members of the [data] object of
    the body in the order of [Object.keys]; a body without such an object has
    none. *)
Definition post_data (h : Host) (e : Service.CallEnv) (tableName : string)
    (data : list (string * field)) (s : System) : response * System :=
  if negb (is_identifier tableName)
  then ({| status := 400;
           content := ErrorBody "Invalid table name" "INVALID_TABLE" |}, s)
  else match data with
  | [] => ({| status := 400;
              content := ErrorBody "Data object is required" "MISSING_DATA" |},
           s)
  | _ =>
      match invalid_column data with
      | Some col =>
          ({| status := 400;
              content := ErrorBody ("Invalid column name: " +:+ col)
                           "INVALID_COLUMN" |}, s)
      | None =>
          answered 201 "Record inserted successfully" tableName "INSERT_ERROR"
            (Service.execute h e (insert_sql tableName data) s)
      end
  end.

(** [PUT /data/:tableName] *)
Definition put_data (h : Host) (e : Service.CallEnv) (tableName : string)
    (data where_ : list (string * field)) (s : System) : response * System :=
  if negb (is_identifier tableName)
  then ({| status := 400;
           content := ErrorBody "Invalid table name" "INVALID_TABLE" |}, s)
  else match data, where_ with
  | [], _ =>
      ({| status := 400;
          content := ErrorBody "Data object is required" "MISSING_DATA" |}, s)
  | _, [] =>
      ({| status := 400;
          content := ErrorBody "Where clause is required for updates"
                       "MISSING_WHERE" |}, s)
  | _, _ =>
      match invalid_column (data ++ where_) with
      | Some col =>
          ({| status := 400;
              content := ErrorBody ("Invalid column name: " +:+ col)
                           "INVALID_COLUMN" |}, s)
      | None =>
          answered 200 "Record(s) updated successfully" tableName
            "UPDATE_ERROR"
            (Service.execute h e (update_sql tableName data where_) s)
      end
  end.

(** [DELETE /data/:tableName] *)
Definition delete_data (h : Host) (e : Service.CallEnv) (tableName : string)
    (where_ : list (string * field)) (s : System) : response * System :=
  if negb (is_identifier tableName)
  then ({| status := 400;
           content := ErrorBody "Invalid table name" "INVALID_TABLE" |}, s)
  else match where_ with
  | [] =>
      ({| status := 400;
          content :=
            ErrorBody "Where clause is required for deletes (use DELETE /api/data/:tableName/all to delete all)"
              "MISSING_WHERE" |}, s)
  | _ =>
      match invalid_column where_ with
      | Some col =>
          ({| status := 400;
              content := ErrorBody ("Invalid column name: " +:+ col)
                           "INVALID_COLUMN" |}, s)
      | None =>
          answered 200 "Record(s) deleted successfully" tableName
            "DELETE_ERROR"
            (Service.execute h e (delete_sql tableName where_) s)
      end
  end.

End Routes.

(** * Vocabulary of the properties *)

(** ** A sample installation *)

Module Sample.

Definition cfg : Config :=
  {| host := "localhost"; port := 9088; database := "presa";
     server := "ol_informix"; user := "informix"; password := "secret" |}.

Definition h : Host :=
  {| config := cfg; tempDir := "/tmp";
     JDBC_JAR := "/opt/informix/jdbc/ifxjdbc.jar"; delimiter := ":" |}.

Definition conn : InformixConnection :=
  {| isInitialized := true; jdbcUrl := Some (Connection.buildJdbcUrl h) |}.

Definition w0 : World := {| fs := ∅; spawned := [] |}.

(** A child that exits with status 0 and a silent error stream. *)
Definition ok (out : string) : Child :=
  {| code := 0; stdout := out; stderr := "" |}.

(** A child that exits with status 1. *)
Definition failed (err : string) : Child :=
  {| code := 1; stdout := ""; stderr := err |}.

(** A call whose program compiles, runs and prints [out]. *)
Definition prints (out : string) : Run :=
  {| javac := ok ""; java := ok out |}.

Definition tables : string := "SELECT tabname FROM systables".

Definition columns : string := "SELECT colname FROM syscolumns".

Definition tables_rows : value :=
  VArray [VObject [(units "tabname", VString (units "customer"))]].

Definition tables_output : string := dquoted "[{'tabname':'customer'}]".

(** The service after start-up, with the answer to [tables] stored at
    time [0]. *)
Definition svc : DatabaseService :=
  Service._setCache 0 (Service._getCacheKey tables "[]") tables_rows
    {| cache := ∅; cacheTimeout := 60000; initialized := true |}.

Definition sys : System := {| service := svc; db := conn; world := w0 |}.

(** The service after start-up with nothing cached. *)
Definition fresh : System :=
  {| service := {| cache := ∅; cacheTimeout := 60000; initialized := true |};
     db := conn; world := w0 |}.

Definition init_env : Connection.InitEnv :=
  {| Connection.java_found := true; Connection.test_run := prints "[]" |}.

(** A call that reads the clock at [t], stores [40] ms later, and whose
    program prints [out]. *)
Definition call (t : Z) (out : string) : Service.CallEnv :=
  {| Service.at_init := init_env; Service.now_get := t;
     Service.run := prints out; Service.now_set := t + 40 |}.

Definition cached : Options := {| useCache := Some true; cacheTtl := None |}.

(** A child whose program fails with a database error. *)
Definition sql_error : Child :=
  {| code := 1; stdout := ""; stderr := "ERROR: no such table" |}.

(** A call whose program compiles and fails. *)
Definition fails : Run := {| javac := ok ""; java := sql_error |}.

(** The service before start-up. *)
Definition cold : System :=
  {| service := Service.constructor; db := Connection.constructor;
     world := w0 |}.

End Sample.

(** ** Escaping *)

(** No CR and no LF occurs in the text. *)
Fixpoint line_free (s : string) : bool :=
  match s with
  | EmptyString => true
  | String c r =>
      negb (Ascii.eqb c "010" || Ascii.eqb c "013") && line_free r
  end.

(** What the two replacements make of one character. *)
Definition escape_char (c : ascii) : string :=
  if Ascii.eqb c bs then String bs (String bs "")
  else if Ascii.eqb c dq then String bs (String dq "")
  else String c "".

(** ** Artifacts *)

(** The files a call of [op] writes, compiles and deletes. *)
Definition artifacts (h : Host) (op : Connection.BridgeOp) : list string :=
  [Connection.javaFile h op; Connection.classFile h op].

(** The independence the specification asks for: once two different calls
    have started, the source each of them wrote is still the one on disk. *)
Definition in_flight_independent : Prop :=
  ∀ h db op1 (sql1 : string) op2 (sql2 : string) w,
    (op1, sql1) ≠ (op2, sql2) →
    let w' := Connection.step db h op2 (Connection.Start sql2)
                (Connection.step db h op1 (Connection.Start sql1) w) in
    fs w' !! Connection.javaFile h op1
    = Some (Text (Connection.javaCode db h op1 sql1)) ∧
    fs w' !! Connection.javaFile h op2
    = Some (Text (Connection.javaCode db h op2 sql2)).

(** ** Decoding *)

(** The run step succeeded: both children exited with status 0 and the
    error stream of the program does not hold the sentinel. *)
Definition run_succeeded (r : Run) : Prop :=
  code (javac r) = 0 ∧ code (java r) = 0 ∧
  includes (stderr (java r)) "ERROR:" = false.

(** The output is not empty and is not a JSON text. *)
Definition malformed (out : string) : Prop :=
  trim out ≠ "" ∧ JSON_parse (trim out) = None.

(** The write path as the specification words it: malformed output of a
    successful run makes [execute] raise. *)
Definition write_decoding_strict : Prop :=
  ∀ db h sql r w,
    run_succeeded r → malformed (stdout (java r)) →
    ∃ e, (Connection.execute db h sql r w).1 = Reject e.

(** The read path as the specification words it: malformed or empty output
    of a successful run decodes to no rows. *)
Definition read_decoding_lenient : Prop :=
  ∀ db h sql r w,
    run_succeeded r →
    malformed (stdout (java r)) ∨ trim (stdout (java r)) = "" →
    (Connection.simpleQuery db h sql r w).1 = Resolve (VArray []).

(** ** Caching *)

(** Caching is on unless the call says [useCache: false]. *)
Definition caching (o : Options) : Prop := default true (useCache o) = true.

(** A parser that never returns more text than it was given. *)
Definition returns_rest {A : Type} (p : string → option (A * string)) : Prop :=
  ∀ s a k, p s = Some (a, k) → (String.length k ≤ String.length s)%nat.

(** ** Statements of the data routes *)




(** The table name and every member name pass the identifier test. *)
Definition names_valid (t : string) (members : list (string * Routes.field))
    : bool :=
  Routes.is_identifier t && forallb (λ m, Routes.is_identifier m.1) members.

Definition nonempty {A : Type} (l : list A) : bool :=
  match l with [] => false | _ => true end.

(** A request turned down before anything was done. *)
Definition turned_down (out : Routes.response * System) (s : System) : Prop :=
  Routes.status out.1 = 400 ∧ out.2 = s.

(** A character string literal of SQL: a quote, the characters, in which a
    quote is written twice, and a quote. [sql_string_characters] reads the
    text after the opening quote and returns the value and the rest. *)
Fixpoint sql_string_characters (s : string) : option (string * string) :=
  match s with
  | EmptyString => None
  | String c r =>
      if Ascii.eqb c "'" then
        match r with
        | String c' r' =>
            if Ascii.eqb c' "'"
            then '(t, k) ← sql_string_characters r'; Some (String "'" t, k)
            else Some ("", r)
        | EmptyString => Some ("", r)
        end
      else '(t, k) ← sql_string_characters r; Some (String c t, k)
  end.

Definition sql_string_literal (s : string) : option (string * string) :=
  match s with
  | String c r => if Ascii.eqb c "'" then sql_string_characters r else None
  | EmptyString => None
  end.

(** ** Guards *)

(** The letters [a] to [z] in upper case, every other character as it is. *)
Definition ascii_upper (c : ascii) : ascii :=
  let n := N_of_ascii c in
  if ((97 <=? n) && (n <=? 122))%N then ascii_of_N (n - 32) else c.

(** [s] begins with [word], a word in upper case, whatever the case of the
    letters of [s]. *)
Fixpoint ci_prefix (word s : string) : bool :=
  match word with
  | EmptyString => true
  | String u w =>
      match s with
      | String a r => Ascii.eqb (ascii_upper a) u && ci_prefix w r
      | EmptyString => false
      end
  end.

(** * Properties *)

(** ** [JSON.parse]: the fuel is enough *)

Section Fuel.

Local Open Scope nat_scope.

Abbreviation len := String.length.

Lemma skip_ws_length (s : string) : len (skip_ws s) ≤ len s.
Proof.
  induction s as [|c r IH]; simpl; [lia|].
  destruct (is_json_ws c); simpl; lia.
Qed.

Lemma starts_with_length (c : ascii) (s k : string) :
  starts_with c s = Some k → len s = S (len k).
Proof.
  destruct s as [|a r]; simpl; [done|].
  destruct (Ascii.eqb a c); by intros [= ->].
Qed.

Lemma strip_prefix_length (lit s k : string) :
  strip_prefix lit s = Some k → len k ≤ len s.
Proof.
  revert s. induction lit as [|a lit IH]; intros s; simpl.
  - intros [= ->]. lia.
  - destruct s as [|b s]; [done|].
    destruct (Ascii.eqb a b); [|done].
    intros H%IH. simpl. lia.
Qed.

Lemma read_digits_length (s : string) (acc : N) (n : nat) m n' k :
  read_digits s acc n = (m, n', k) → len k ≤ len s.
Proof.
  revert acc n. induction s as [|c r IH]; intros acc n; simpl.
  - intros [= _ _ <-]. simpl. lia.
  - destruct (digit_of c).
    + intros H%IH. lia.
    + intros [= _ _ <-]. simpl. lia.
Qed.

Lemma read_int_length (s : string) i k :
  read_int s = Some (i, k) → len k ≤ len s.
Proof.
  unfold read_int. destruct s as [|c r]; [done|].
  destruct (digit_of c) as [d|]; [|done].
  destruct (d =? 0)%N.
  - intros [= _ <-]. simpl. lia.
  - destruct (read_digits r d 0) as [[m n] r'] eqn:Hd.
    intros [= _ <-]. apply read_digits_length in Hd. simpl. lia.
Qed.

Lemma read_frac_length (i : N) (s : string) m n k :
  read_frac i s = Some (m, n, k) → len k ≤ len s.
Proof.
  unfold read_frac. destruct (starts_with "." s) as [r|] eqn:Hdot.
  - apply starts_with_length in Hdot.
    destruct (read_digits r i 0) as [[m1 n1] r1] eqn:Hd.
    apply read_digits_length in Hd.
    destruct n1; [done|]. intros [= _ _ <-]. lia.
  - intros [= _ _ <-]. lia.
Qed.

Lemma read_exp_length (s : string) e k :
  read_exp s = Some (e, k) → len k ≤ len s.
Proof.
  unfold read_exp. destruct s as [|c r]; [by intros [= _ <-]|].
  destruct (Ascii.eqb c "e" || Ascii.eqb c "E"); [|by intros [= _ <-]].
  destruct (starts_with "+" r) as [r1|] eqn:Hplus.
  { apply starts_with_length in Hplus.
    destruct (read_digits r1 0 0) as [[e1 n1] r2] eqn:Hd.
    apply read_digits_length in Hd.
    destruct n1; [done|]. intros [= _ <-]. simpl. lia. }
  destruct (starts_with "-" r) as [r1|] eqn:Hminus.
  { apply starts_with_length in Hminus.
    destruct (read_digits r1 0 0) as [[e1 n1] r2] eqn:Hd.
    apply read_digits_length in Hd.
    destruct n1; [done|]. intros [= _ <-]. simpl. lia. }
  destruct (read_digits r 0 0) as [[e1 n1] r2] eqn:Hd.
  apply read_digits_length in Hd.
  destruct n1; [done|]. intros [= _ <-]. simpl. lia.
Qed.

Lemma read_number_length (s : string) (n : number) (k : string) :
  read_number s = Some (n, k) → len k ≤ len s.
Proof.
  unfold read_number.
  assert (∀ s1, len s1 ≤ len s →
            ∀ sg, ('(i, s2) ← read_int s1;
                   '(m, kf, s3) ← read_frac i s2;
                   '(e, s4) ← read_exp s3;
                   Some (Num sg m (e - Z.of_nat kf)%Z, s4)) = Some (n, k) →
            len k ≤ len s) as Hbody.
  { intros s1 Hs1 sg.
    destruct (read_int s1) as [[i s2]|] eqn:Hi; [|done]. simpl.
    destruct (read_frac i s2) as [[[m kf] s3]|] eqn:Hf; [|done]. simpl.
    destruct (read_exp s3) as [[e s4]|] eqn:He; [|done]. simpl.
    intros [= _ <-].
    apply read_int_length in Hi. apply read_frac_length in Hf.
    apply read_exp_length in He. lia. }
  destruct (starts_with "-" s) as [r|] eqn:Hsign.
  - apply starts_with_length in Hsign. apply Hbody. lia.
  - by apply Hbody.
Qed.

Lemma read_string_length (s : string) (t : list N) (k : string) :
  read_string s = Some (t, k) → len k < len s.
Proof.
  remember (len s) as n eqn:Hn.
  assert (len s ≤ n) as Hle by lia. clear Hn.
  revert s t k Hle.
  induction n as [|n IH]; intros s t k Hle.
  - destruct s; simpl in *; [done | lia].
  - destruct s as [|c r]; [done|]. simpl in Hle. simpl.
    destruct (Ascii.eqb c dq); [intros [= <- <-]; lia|].
    destruct (Ascii.eqb c bs).
    + destruct r as [|e r']; [done|].
      destruct (Ascii.eqb e "u").
      * destruct r' as [|a [|b [|c' [|d r'']]]]; try done.
        destruct (hex_of a), (hex_of b), (hex_of c'), (hex_of d); try done.
        simpl. destruct (read_string r'') as [[t' k']|] eqn:Hr; [|done].
        intros [= <- <-]. apply IH in Hr; simpl in *; lia.
      * destruct (escape_unit e); [|done]. simpl.
        destruct (read_string r') as [[t' k']|] eqn:Hr; [|done].
        intros [= <- <-]. apply IH in Hr; simpl in *; lia.
    + destruct (N_of_ascii c <? 32)%N; [done|].
      destruct (read_string r) as [[t' k']|] eqn:Hr; [|done].
      intros [= <- <-]. apply IH in Hr; simpl in *; lia.
Qed.

Lemma value_step_rest elements members :
  returns_rest elements → returns_rest members →
  returns_rest (value_step elements members).
Proof.
  intros He Hm s v k. unfold value_step.
  pose proof (skip_ws_length s) as Hws.
  destruct (skip_ws s) as [|c r]; [done|]. simpl in Hws.
  pose proof (skip_ws_length r) as Hwr.
  destruct (Ascii.eqb c dq).
  { destruct (read_string r) as [[t k']|] eqn:Hr; [|done].
    intros [= <- <-]. apply read_string_length in Hr. lia. }
  assert (∀ lit v0, expect lit v0 (String c r) = Some (v, k) → len k ≤ len s)
    as Hexpect.
  { intros lit v0. unfold expect.
    destruct (strip_prefix _ _) as [k'|] eqn:Hp; [|done].
    intros [= <- <-]. apply strip_prefix_length in Hp. simpl in Hp. lia. }
  destruct (Ascii.eqb c "n"); [by apply Hexpect|].
  destruct (Ascii.eqb c "t"); [by apply Hexpect|].
  destruct (Ascii.eqb c "f"); [by apply Hexpect|].
  destruct (Ascii.eqb c "[").
  { destruct (starts_with "]" (skip_ws r)) as [k'|] eqn:Hs.
    - intros [= <- <-]. apply starts_with_length in Hs. lia.
    - destruct (elements (skip_ws r)) as [[l k']|] eqn:Hl; [|done].
      intros [= <- <-]. apply He in Hl. lia. }
  destruct (Ascii.eqb c "{").
  { destruct (starts_with "}" (skip_ws r)) as [k'|] eqn:Hs.
    - intros [= <- <-]. apply starts_with_length in Hs. lia.
    - destruct (members (skip_ws r)) as [[l k']|] eqn:Hl; [|done].
      intros [= <- <-]. apply Hm in Hl. lia. }
  destruct (read_number (String c r)) as [[n k']|] eqn:Hn; [|done].
  intros [= <- <-]. apply read_number_length in Hn. simpl in Hn. lia.
Qed.

Lemma elements_step_rest val elements :
  returns_rest val → returns_rest elements →
  returns_rest (elements_step val elements).
Proof.
  intros Hv He s l k. unfold elements_step.
  destruct (val s) as [[v k0]|] eqn:Hval; [|done]. simpl.
  apply Hv in Hval. pose proof (skip_ws_length k0) as Hw.
  destruct (starts_with "," (skip_ws k0)) as [k'|] eqn:Hc.
  - apply starts_with_length in Hc.
    destruct (elements k') as [[l' k'']|] eqn:Hl; [|done].
    intros [= <- <-]. apply He in Hl. lia.
  - destruct (starts_with "]" (skip_ws k0)) as [k'|] eqn:Hb; [|done].
    apply starts_with_length in Hb. intros [= <- <-]. lia.
Qed.

Lemma members_step_rest val members :
  returns_rest val → returns_rest members →
  returns_rest (members_step val members).
Proof.
  intros Hv Hm s l k. unfold members_step.
  pose proof (skip_ws_length s) as Hws.
  destruct (starts_with dq (skip_ws s)) as [k0|] eqn:Hq; [|done]. simpl.
  apply starts_with_length in Hq.
  destruct (read_string k0) as [[name k1]|] eqn:Hr; [|done]. simpl.
  apply read_string_length in Hr. pose proof (skip_ws_length k1) as Hw1.
  destruct (starts_with ":" (skip_ws k1)) as [k2|] eqn:Hc; [|done]. simpl.
  apply starts_with_length in Hc.
  destruct (val k2) as [[v k3]|] eqn:Hval; [|done]. simpl.
  apply Hv in Hval. pose proof (skip_ws_length k3) as Hw3.
  destruct (starts_with "," (skip_ws k3)) as [k4|] eqn:Hcm.
  - apply starts_with_length in Hcm.
    destruct (members k4) as [[l' k5]|] eqn:Hl; [|done].
    intros [= <- <-]. apply Hm in Hl. lia.
  - destruct (starts_with "}" (skip_ws k3)) as [k4|] eqn:Hb; [|done].
    apply starts_with_length in Hb. intros [= <- <-]. lia.
Qed.

Lemma parse_rest (f : nat) :
  returns_rest (parse_value f) ∧ returns_rest (parse_elements f) ∧
  returns_rest (parse_members f).
Proof.
  induction f as [|f (IHv & IHe & IHm)]; [by repeat split|].
  repeat split; simpl.
  - by apply value_step_rest.
  - by apply elements_step_rest.
  - by apply members_step_rest.
Qed.

(** Each production consults the nested parsers on shorter texts only
    (the element and member lists consult the value parser on the text
    itself, or on a shorter one). *)
Lemma value_step_ext e1 e2 m1 m2 (s : string) :
  (∀ x, len x < len s → e1 x = e2 x) →
  (∀ x, len x < len s → m1 x = m2 x) →
  value_step e1 m1 s = value_step e2 m2 s.
Proof.
  intros He Hm. unfold value_step.
  pose proof (skip_ws_length s) as Hws.
  destruct (skip_ws s) as [|c r]; [done|]. simpl in Hws.
  pose proof (skip_ws_length r) as Hwr.
  rewrite He, Hm by lia. reflexivity.
Qed.

Lemma elements_step_ext v1 v2 e1 e2 (s : string) :
  returns_rest v2 → v1 s = v2 s →
  (∀ x, len x < len s → e1 x = e2 x) →
  elements_step v1 e1 s = elements_step v2 e2 s.
Proof.
  intros Hrest Hv He. unfold elements_step. rewrite Hv.
  destruct (v2 s) as [[v k0]|] eqn:Hval; [|done]. simpl.
  apply Hrest in Hval. pose proof (skip_ws_length k0) as Hw.
  destruct (starts_with "," (skip_ws k0)) as [k'|] eqn:Hc; [|done].
  apply starts_with_length in Hc. rewrite He by lia. reflexivity.
Qed.

Lemma members_step_ext v1 v2 m1 m2 (s : string) :
  returns_rest v2 →
  (∀ x, len x < len s → v1 x = v2 x) →
  (∀ x, len x < len s → m1 x = m2 x) →
  members_step v1 m1 s = members_step v2 m2 s.
Proof.
  intros Hrest Hv Hm. unfold members_step.
  pose proof (skip_ws_length s) as Hws.
  destruct (starts_with dq (skip_ws s)) as [k0|] eqn:Hq; [|done]. simpl.
  apply starts_with_length in Hq.
  destruct (read_string k0) as [[name k1]|] eqn:Hr; [|done]. simpl.
  apply read_string_length in Hr. pose proof (skip_ws_length k1) as Hw1.
  destruct (starts_with ":" (skip_ws k1)) as [k2|] eqn:Hc; [|done]. simpl.
  apply starts_with_length in Hc.
  rewrite Hv by lia.
  destruct (v2 k2) as [[v k3]|] eqn:Hval; [|done]. simpl.
  apply Hrest in Hval. pose proof (skip_ws_length k3) as Hw3.
  destruct (starts_with "," (skip_ws k3)) as [k4|] eqn:Hcm; [|done].
  apply starts_with_length in Hcm. rewrite Hm by lia. reflexivity.
Qed.

(** Past [2 * n + 1] (values) and [2 * n + 2] (lists), one more unit of fuel
    changes nothing. *)
Lemma parse_fuel_step (f : nat) :
  (∀ s, 2 * len s + 1 ≤ f → parse_value (S f) s = parse_value f s) ∧
  (∀ s, 2 * len s + 2 ≤ f → parse_elements (S f) s = parse_elements f s) ∧
  (∀ s, 2 * len s + 2 ≤ f → parse_members (S f) s = parse_members f s).
Proof.
  induction f as [|f (IHv & IHe & IHm)].
  { repeat split; intros s Hs; lia. }
  destruct (parse_rest f) as (Rv & _ & _).
  repeat split; intros s Hs.
  - change (value_step (parse_elements (S f)) (parse_members (S f)) s
            = value_step (parse_elements f) (parse_members f) s).
    apply value_step_ext; intros x Hx; [apply IHe | apply IHm]; lia.
  - change (elements_step (parse_value (S f)) (parse_elements (S f)) s
            = elements_step (parse_value f) (parse_elements f) s).
    apply elements_step_ext; [done | apply IHv; lia |].
    intros x Hx. apply IHe. lia.
  - change (members_step (parse_value (S f)) (parse_members (S f)) s
            = members_step (parse_value f) (parse_members f) s).
    apply members_step_ext; [done | |]; intros x Hx; [apply IHv | apply IHm]; lia.
Qed.

(** [JSON_parse] gives the answer of the parser run with any larger fuel:
    a [None] is a syntax error, never a lack of fuel. *)
Lemma parse_value_fuel (f : nat) (s : string) :
  2 * len s + 1 ≤ f → parse_value f s = parse_value (2 * len s + 1) s.
Proof.
  intros Hf. replace f with ((f - (2 * len s + 1)) + (2 * len s + 1)) by lia.
  generalize (f - (2 * len s + 1)) as n. intros n.
  induction n as [|n IH]; [reflexivity|].
  rewrite <- IH. simpl Nat.add.
  apply (proj1 (parse_fuel_step _)). lia.
Qed.

Lemma JSON_parse_fuel (f : nat) (text : string) :
  2 * len text + 1 ≤ f →
  ('(v, k) ← parse_value f text;
   match skip_ws k with
   | EmptyString => Some v
   | _ => None
   end) = JSON_parse text.
Proof. intros Hf. unfold JSON_parse. by rewrite (parse_value_fuel f). Qed.

End Fuel.

(** ** The JavaScript primitives on examples *)

Example trim_example : trim (String "009" "  [] " +:+ Routes.nl) = "[]".
Proof. reflexivity. Qed.

Example includes_example :
  includes "java.sql.SQLException ERROR: no such table" "ERROR:" = true ∧
  includes "WARNING: illegal reflective access" "ERROR:" = false.
Proof. by vm_compute. Qed.

Example JSON_parse_rows :
  JSON_parse Sample.tables_output = Some Sample.tables_rows.
Proof. reflexivity. Qed.

Example JSON_parse_syntax_errors :
  JSON_parse "" = None ∧ JSON_parse "oops" = None ∧ JSON_parse "[1,]" = None ∧
  JSON_parse "01" = None ∧ JSON_parse "[] []" = None.
Proof. by vm_compute. Qed.

(** [1e-400] is read as zero, which is falsy; the least positive number
    [5e-324] is not. *)
Example truthy_numbers :
  truthy <$> JSON_parse "1e-400" = Some false ∧
  truthy <$> JSON_parse "5e-324" = Some true ∧
  truthy <$> JSON_parse "-0.0" = Some false.
Proof. by vm_compute. Qed.

Example truthy_empty_array : truthy <$> JSON_parse "[]" = Some true.
Proof. reflexivity. Qed.

(** ** Escaping of the embedded statement *)

Section Escaping.

Import Connection.

Lemma append_cons (a : ascii) (s t : string) :
  String a s +:+ t = String a (s +:+ t).
Proof. reflexivity. Qed.

Lemma append_nil_l (t : string) : "" +:+ t = t.
Proof. reflexivity. Qed.

Ltac push_append := rewrite ?append_cons, ?append_nil_l.

Lemma append_assoc (s t u : string) : (s +:+ t) +:+ u = s +:+ (t +:+ u).
Proof.
  induction s as [|a s IH]; [reflexivity|].
  rewrite !append_cons. by rewrite IH.
Qed.

Lemma replace_all_app (c : ascii) (b s t : string) :
  replace_all c b (s +:+ t) = replace_all c b s +:+ replace_all c b t.
Proof.
  induction s as [|a s IH]; [reflexivity|].
  rewrite append_cons. simpl. rewrite IH.
  destruct (Ascii.eqb a c); [by rewrite append_assoc | reflexivity].
Qed.

(** The two passes amount to one pass that rewrites each character on its
    own: the quote pass leaves the doubled backslashes alone. *)
Lemma escapeSql_cons (a : ascii) (s : string) :
  escapeSql (String a s) = escape_char a +:+ escapeSql s.
Proof.
  unfold escapeSql, escape_char. simpl.
  destruct (Ascii.eqb_spec a bs) as [->|Hbs].
  - push_append. simpl. reflexivity.
  - simpl. destruct (Ascii.eqb_spec a dq) as [->|Hdq]; reflexivity.
Qed.

Lemma escapeSql_app (s t : string) :
  escapeSql (s +:+ t) = escapeSql s +:+ escapeSql t.
Proof. unfold escapeSql. by rewrite !replace_all_app. Qed.

(** Reading back the escaped text of a statement without line terminators
    yields the statement, and stops at the quote that closes it. *)
Lemma string_characters_escapeSql (sql rest : string) :
  line_free sql = true →
  Java.string_characters (escapeSql sql +:+ q +:+ rest) = Java.Literal sql rest.
Proof.
  induction sql as [|a sql IH]; intros Hlf.
  - reflexivity.
  - simpl in Hlf. apply andb_prop in Hlf as [Ha Hlf].
    apply negb_true_iff in Ha.
    rewrite escapeSql_cons. unfold escape_char.
    destruct (Ascii.eqb_spec a bs) as [->|Hbs].
    + push_append. simpl. by rewrite (IH Hlf).
    + destruct (Ascii.eqb_spec a dq) as [->|Hdq].
      * push_append. simpl. by rewrite (IH Hlf).
      * push_append. simpl.
        apply Ascii.eqb_neq in Hbs, Hdq. rewrite Hbs, Hdq, Ha.
        by rewrite (IH Hlf).
Qed.

(** For such a statement the text between the quotes of the generated
    program is one string literal, whose value is the statement. *)
Lemma embedded_literal (sql tail : string) :
  line_free sql = true →
  Java.string_literal (q +:+ escapeSql sql +:+ q +:+ tail)
  = Java.Literal sql tail.
Proof.
  intros Hlf. unfold q at 1. push_append. simpl.
  by apply string_characters_escapeSql.
Qed.

(** A line feed in the statement passes through both replacements and ends
    the literal before its closing quote. *)
Lemma escapeSql_line_feed (s t rest : string) :
  line_free s = true →
  Java.string_characters (escapeSql (s +:+ Routes.nl +:+ t) +:+ q +:+ rest)
  = Java.Malformed.
Proof.
  induction s as [|a s IH]; intros Hlf.
  - unfold Routes.nl. push_append. rewrite escapeSql_cons. reflexivity.
  - simpl in Hlf. apply andb_prop in Hlf as [Ha Hlf].
    apply negb_true_iff in Ha.
    rewrite append_cons, escapeSql_cons. unfold escape_char.
    destruct (Ascii.eqb_spec a bs) as [->|Hbs].
    + push_append. simpl. by rewrite (IH Hlf).
    + destruct (Ascii.eqb_spec a dq) as [->|Hdq].
      * push_append. simpl. by rewrite (IH Hlf).
      * push_append. simpl.
        apply Ascii.eqb_neq in Hbs, Hdq. rewrite Hbs, Hdq, Ha.
        by rewrite (IH Hlf).
Qed.

End Escaping.

(** ** The bridge: artifacts and clean-up *)

Section Bridge.

Import Connection.

Context (h : Host).

Lemma path_join_inj (dir a b : string) :
  path_join dir a = path_join dir b → a = b.
Proof.
  unfold path_join. intros H.
  apply (inj (String.app dir)) in H. by simplify_eq.
Qed.

Lemma javaFile_classFile (op op' : BridgeOp) : javaFile h op ≠ classFile h op'.
Proof. intros H%path_join_inj. destruct op, op'; discriminate. Qed.

Ltac paths_ne :=
  first [ apply javaFile_classFile | apply not_eq_sym, javaFile_classFile ].

Lemma javaFile_inj (op op' : BridgeOp) :
  javaFile h op = javaFile h op' → op = op'.
Proof. intros H%path_join_inj. destruct op, op'; by simplify_eq. Qed.

Lemma classFile_inj (op op' : BridgeOp) :
  classFile h op = classFile h op' → op = op'.
Proof. intros H%path_join_inj. destruct op, op'; by simplify_eq. Qed.

Lemma artifacts_disjoint (p : string) :
  p ∈ artifacts h SimpleQuery → p ∉ artifacts h Execute.
Proof.
  unfold artifacts. rewrite !elem_of_cons, !elem_of_nil.
  intros [-> | [-> | []]] [H | [H | []]].
  - by apply javaFile_inj in H.
  - by apply javaFile_classFile in H.
  - symmetry in H. by apply javaFile_classFile in H.
  - by apply classFile_inj in H.
Qed.

(** *** Each stage touches the artifacts of its operation only *)

Lemma cleanup_frame (j c p : string) (w : World) :
  p ≠ j → p ≠ c → fs (cleanup j c w) !! p = fs w !! p.
Proof.
  intros Hj%not_eq_sym Hc%not_eq_sym. unfold cleanup, unlinkSync.
  destruct (fs w !! j) eqn:Ej; simpl; [|done].
  destruct (delete j (fs w) !! c) eqn:Ec; simpl;
    by rewrite ?lookup_delete_ne.
Qed.

Lemma compiled_frame (ch : Child) (j c p : string) (w : World) :
  p ≠ c → fs (compiled ch j c w) !! p = fs w !! p.
Proof.
  intros Hc%not_eq_sym. unfold compiled.
  destruct (fs w !! j) as [[src|src]|]; try done.
  destruct (code ch =? 0); [|done]. simpl. by rewrite lookup_insert_ne.
Qed.

Lemma started_frame db (op : BridgeOp) (sql p : string) (w : World) :
  p ∉ artifacts h op → fs (started db h op sql w) !! p = fs w !! p.
Proof.
  unfold artifacts. rewrite !not_elem_of_cons. intros (Hj%not_eq_sym & _ & _).
  simpl. by rewrite lookup_insert_ne.
Qed.

Lemma compile_closed_frame (op : BridgeOp) (ch : Child) (p : string) (w : World) :
  p ∉ artifacts h op → fs (compile_closed h op ch w).2 !! p = fs w !! p.
Proof.
  unfold artifacts. rewrite !not_elem_of_cons. intros (_ & Hc & _).
  unfold compile_closed.
  destruct (negb (code ch =? 0)); simpl; by rewrite compiled_frame.
Qed.

Lemma simpleQuery_closed_frame (ch : Child) (p : string) (w : World) :
  p ∉ artifacts h SimpleQuery →
  fs (simpleQuery_closed h ch w).2 !! p = fs w !! p.
Proof.
  unfold artifacts. rewrite !not_elem_of_cons. intros (Hj & Hc & _).
  unfold simpleQuery_closed.
  repeat case_match; simpl; by rewrite cleanup_frame.
Qed.

Lemma execute_closed_frame (ch : Child) (p : string) (w : World) :
  p ∉ artifacts h Execute → fs (execute_closed h ch w).2 !! p = fs w !! p.
Proof.
  unfold artifacts. rewrite !not_elem_of_cons. intros (Hj & Hc & _).
  unfold execute_closed.
  repeat case_match; simpl; by rewrite cleanup_frame.
Qed.

(** *** What the stages do to the artifacts *)

Lemma started_source db (op : BridgeOp) (sql : string) (w : World) :
  fs (started db h op sql w) !! javaFile h op
  = Some (Text (javaCode db h op sql)).
Proof. simpl. by rewrite lookup_insert_eq. Qed.

(** After a successful compilation that found the source in place, the
    clean-up removes both artifacts. *)
Lemma cleanup_after_compile (op : BridgeOp) (ch : Child) (src : string)
    (w : World) :
  fs w !! javaFile h op = Some (Text src) →
  code ch = 0 →
  let w' := cleanup (javaFile h op) (classFile h op)
              (compile_closed h op ch w).2 in
  fs w' !! javaFile h op = None ∧ fs w' !! classFile h op = None.
Proof.
  intros Hsrc Hcode. unfold compile_closed, compiled.
  rewrite Hsrc, Hcode. simpl.
  unfold cleanup, unlinkSync. simpl.
  rewrite lookup_insert_ne by paths_ne.
  rewrite Hsrc. simpl.
  rewrite lookup_delete_ne by paths_ne.
  rewrite lookup_insert_eq. simpl.
  split.
  - rewrite lookup_delete_ne by paths_ne.
    by rewrite lookup_delete_eq.
  - by rewrite lookup_delete_eq.
Qed.

(** A call whose compilation succeeds leaves neither artifact behind,
    whatever the program does and whether or not its output decodes. *)
Lemma simpleQuery_removes_artifacts db (sql : string) (r : Run) (w : World) :
  code (javac r) = 0 →
  let w' := (simpleQuery db h sql r w).2 in
  fs w' !! javaFile h SimpleQuery = None ∧
  fs w' !! classFile h SimpleQuery = None.
Proof.
  intros Hcode. unfold simpleQuery.
  pose proof (cleanup_after_compile SimpleQuery (javac r) _
                (started db h SimpleQuery sql w)
                (started_source db SimpleQuery sql w) Hcode) as Hc.
  destruct (compile_closed h SimpleQuery (javac r)
              (started db h SimpleQuery sql w)) as [[e|] w1] eqn:E.
  - unfold compile_closed in E. rewrite Hcode in E. discriminate.
  - simpl in Hc. unfold simpleQuery_closed.
    repeat case_match; exact Hc.
Qed.

Lemma execute_removes_artifacts db (sql : string) (r : Run) (w : World) :
  code (javac r) = 0 →
  let w' := (execute db h sql r w).2 in
  fs w' !! javaFile h Execute = None ∧
  fs w' !! classFile h Execute = None.
Proof.
  intros Hcode. unfold execute.
  pose proof (cleanup_after_compile Execute (javac r) _
                (started db h Execute sql w)
                (started_source db Execute sql w) Hcode) as Hc.
  destruct (compile_closed h Execute (javac r)
              (started db h Execute sql w)) as [[e|] w1] eqn:E.
  - unfold compile_closed in E. rewrite Hcode in E. discriminate.
  - simpl in Hc. unfold execute_closed.
    repeat case_match; exact Hc.
Qed.

(** *** Counting bridge calls *)

Lemma spawned_cleanup (j c : string) (w : World) :
  spawned (cleanup j c w) = spawned w.
Proof.
  unfold cleanup, unlinkSync.
  destruct (fs w !! j); simpl; [|done].
  by destruct (delete j (fs w) !! c).
Qed.

Lemma spawned_compiled (ch : Child) (j c : string) (w : World) :
  spawned (compiled ch j c w) = spawned w.
Proof. unfold compiled. by repeat case_match. Qed.

Lemma simpleQuery_bridge_calls db (sql : string) (r : Run) (w : World) :
  Service.bridge_calls (simpleQuery db h sql r w).2
  = S (Service.bridge_calls w).
Proof.
  unfold simpleQuery, compile_closed.
  destruct (negb (code (javac r) =? 0)); simpl.
  - unfold Service.bridge_calls. by rewrite spawned_compiled.
  - unfold simpleQuery_closed.
    repeat case_match; simpl; unfold Service.bridge_calls;
      by rewrite spawned_cleanup; simpl; rewrite spawned_compiled.
Qed.

(** *** Decoding of the program's output *)

Lemma simpleQuery_run_succeeded db (sql : string) (r : Run) (w : World) :
  run_succeeded r →
  (simpleQuery db h sql r w).1
  = match JSON_parse (str_or (trim (stdout (java r))) "[]") with
    | Some v => Resolve v
    | None => Reject (Error "Failed to parse results")
    end.
Proof.
  intros (Hc & Hr & Herr). unfold simpleQuery, compile_closed.
  rewrite Hc. simpl. unfold simpleQuery_closed. rewrite Hr, Herr. simpl.
  by case_match.
Qed.

Lemma execute_run_succeeded db (sql : string) (r : Run) (w : World) :
  run_succeeded r →
  (execute db h sql r w).1
  = match JSON_parse (str_or (trim (stdout (java r))) execute_default_text) with
    | Some v => Resolve v
    | None => Resolve execute_default
    end.
Proof.
  intros (Hc & Hr & Herr). unfold execute, compile_closed.
  rewrite Hc. simpl. unfold execute_closed. rewrite Hr, Herr. simpl.
  by case_match.
Qed.

Lemma str_or_nonempty (x y : string) : x ≠ "" → str_or x y = x.
Proof. by destruct x. Qed.

(** The text that stands for an empty output decodes to the object the
    failure branch resolves with. *)
Lemma execute_default_text_parses :
  JSON_parse execute_default_text = Some execute_default.
Proof. reflexivity. Qed.

End Bridge.

(** Two [simpleQuery] calls in flight: the second overwrites the source of
    the first, the first compiles and runs the program of the second, and its
    clean-up deletes the source the second is about to compile. *)
Example same_operation_calls_collide :
  let op := Connection.SimpleQuery in
  let go := Connection.step Sample.conn Sample.h op in
  let w1 := go (Connection.Start Sample.columns)
              (go (Connection.Start Sample.tables) Sample.w0) in
  let w2 := go (Connection.CompileClose (Sample.ok "")) w1 in
  let w3 := go (Connection.RunClose (Sample.ok "[]")) w2 in
  fs w2 !! Connection.classFile Sample.h op
  = Some (Class (Connection.javaCode Sample.conn Sample.h op Sample.columns)) ∧
  fs w3 !! Connection.javaFile Sample.h op = None.
Proof. by vm_compute. Qed.

(** ** The query cache *)

Section Cache.

Import Service.

Context (h : Host).

Lemma getFromCache_fresh (s : DatabaseService) (key : string) (c : CacheEntry)
    (now : Z) :
  cache s !! key = Some c → now - timestamp c < cacheTimeout s →
  _getFromCache now key s = (data c, s).
Proof.
  intros Hc Hage. unfold _getFromCache. rewrite Hc.
  apply Z.ltb_lt in Hage. by rewrite Hage.
Qed.

Lemma getFromCache_expired (s : DatabaseService) (key : string)
    (c : CacheEntry) (now : Z) :
  cache s !! key = Some c → cacheTimeout s ≤ now - timestamp c →
  _getFromCache now key s = (VNull, set_cache (delete key (cache s)) s).
Proof.
  intros Hc Hage. unfold _getFromCache. rewrite Hc.
  apply Z.ltb_ge in Hage. by rewrite Hage.
Qed.

Lemma getFromCache_empty (s : DatabaseService) (key : string) (now : Z) :
  cache s = ∅ → (_getFromCache now key s).1 = VNull.
Proof.
  intros He. unfold _getFromCache. rewrite He, lookup_empty. reflexivity.
Qed.

(** *** [init] *)

Lemma init_initialized (e : Connection.InitEnv) (s : System) :
  initialized (service s) = true → init h e s = (Resolve tt, s).
Proof. intros Hi. unfold init. by rewrite Hi. Qed.

Lemma init_resolved (e : Connection.InitEnv) (s s1 : System) (u : unit) :
  init h e s = (Resolve u, s1) →
  initialized (service s1) = true ∧
  cache (service s1) = cache (service s) ∧
  cacheTimeout (service s1) = cacheTimeout (service s).
Proof.
  unfold init. destruct (initialized (service s)) eqn:Hi.
  - intros [= <- <-]. done.
  - destruct (Connection.initialize _ _ _ _) as [[[]]]; intros [= <- <-]; done.
Qed.

(** *** [query] *)

(** A fresh entry with truthy data is served, and nothing changes. *)
Lemma query_hit (e : CallEnv) (sql params : string) (o : Options)
    (s : System) (c : CacheEntry) :
  initialized (service s) = true → caching o →
  cache (service s) !! _getCacheKey sql params = Some c →
  now_get e - timestamp c < cacheTimeout (service s) →
  truthy (data c) = true →
  query h e sql params o s
  = (Resolve {| rows := data c; fromCache := true |}, s).
Proof.
  intros Hi Ho Hc Hage Ht. unfold query.
  rewrite init_initialized by done. rewrite Ho.
  rewrite (getFromCache_fresh _ _ c) by done.
  rewrite Ht. simpl. by destruct s.
Qed.

(** A call that went to the bridge and resolved has stored what it got,
    stamped with the clock read at that moment. *)
Lemma query_miss_stores (e : CallEnv) (sql params : string) (o : Options)
    (s s1 : System) (d : value) :
  caching o →
  query h e sql params o s
  = (Resolve {| rows := d; fromCache := false |}, s1) →
  initialized (service s1) = true ∧
  cacheTimeout (service s1) = cacheTimeout (service s) ∧
  cache (service s1) !! _getCacheKey sql params
  = Some {| data := d; timestamp := now_set e |}.
Proof.
  intros Ho. unfold query.
  destruct (init h (at_init e) s) as [[u|err] s0] eqn:Hinit; [|done].
  apply init_resolved in Hinit as (Hi & Hcache & Htime).
  rewrite Ho.
  destruct (_getFromCache (now_get e) (_getCacheKey sql params) (service s0))
    as [cached svc] eqn:Hget.
  assert (initialized svc = true ∧ cacheTimeout svc = cacheTimeout (service s0))
    as [Hi' Htime'].
  { unfold _getFromCache in Hget. repeat case_match; by simplify_eq. }
  simpl. destruct (truthy cached); [done|].
  destruct (Connection.simpleQuery _ _ _ _ _) as [[d'|err] w']; [|done].
  intros [= -> <-]. simpl.
  rewrite lookup_insert_eq. repeat split; [done | congruence].
Qed.

(** With an empty cache no call is served from it. *)
Lemma query_empty_cache_misses (e : CallEnv) (sql params : string)
    (o : Options) (s s1 : System) (r : QueryResult) :
  cache (service s) = ∅ →
  query h e sql params o s = (Resolve r, s1) → fromCache r = false.
Proof.
  intros He. unfold query.
  destruct (init h (at_init e) s) as [[u|err] s0] eqn:Hinit; [|done].
  apply init_resolved in Hinit as (_ & Hcache & _). rewrite He in Hcache.
  pose proof (getFromCache_empty (service s0) (_getCacheKey sql params)
                (now_get e) Hcache) as Hget.
  destruct (default true (useCache o)).
  - destruct (_getFromCache _ _ _) as [cached svc]. simpl in Hget. subst cached.
    simpl. destruct (Connection.simpleQuery _ _ _ _ _) as [[d|err] w'];
      by intros [= <- _].
  - simpl. destruct (Connection.simpleQuery _ _ _ _ _) as [[d|err] w'];
      by intros [= <- _].
Qed.

(** The per-call [cacheTtl] has no effect on a call. *)
Lemma query_cacheTtl_unused (e : CallEnv) (sql params : string)
    (uc : option bool) (t t' : option Z) (s : System) :
  query h e sql params {| useCache := uc; cacheTtl := t |} s
  = query h e sql params {| useCache := uc; cacheTtl := t' |} s.
Proof. reflexivity. Qed.

Lemma query_miss_bridge_calls (e : CallEnv) (sql params : string)
    (o : Options) (s s1 : System) (d : value) :
  initialized (service s) = true →
  query h e sql params o s
  = (Resolve {| rows := d; fromCache := false |}, s1) →
  bridge_calls (world s1) = S (bridge_calls (world s)).
Proof.
  intros Hi. unfold query. rewrite init_initialized by done.
  destruct (if default true (useCache o) then _ else _) as [cached svc].
  destruct (default true (useCache o) && truthy cached); [done|].
  pose proof (simpleQuery_bridge_calls h (db s) sql (run e) (world s)) as Hn.
  destruct (Connection.simpleQuery _ _ _ _ _) as [[d'|err] w']; [|done].
  by intros [= _ <-].
Qed.

(** *** [execute] *)

(** A call whose bridge step rejects throws and leaves the cache as it
    was. *)
Lemma execute_rejected_keeps_cache (e : CallEnv) (sql : string)
    (s s1 : System) (err : jserror) :
  execute h e sql s = (Reject err, s1) →
  cache (service s1) = cache (service s).
Proof.
  unfold execute.
  destruct (init h (at_init e) s) as [[u|err0] s0] eqn:Hinit.
  - apply init_resolved in Hinit as (_ & Hcache & _).
    destruct (Connection.execute _ _ _ _ _) as [[r|err1] w']; [done|].
    by intros [= _ <-].
  - intros [= _ <-]. unfold init in Hinit.
    destruct (initialized (service s)); [done|].
    destruct (Connection.initialize _ _ _ _) as [[[]]]; by simplify_eq.
Qed.

End Cache.

(** * The claims *)

(** C1, refuted as stated: on the output [oops] of a successful run,
    [execute] raises nothing; it resolves with the default outcome. *)
Lemma write_decoding_strict_counterexample : ¬ write_decoding_strict.
Proof.
  intros H.
  destruct (H Sample.conn Sample.h "DELETE FROM orders" (Sample.prints "oops")
              Sample.w0) as [e He].
  - by vm_compute.
  - split; [by vm_compute | by vm_compute].
  - vm_compute in He. discriminate.
Qed.

(** C1, as amended: when the run step succeeds but the output is non-empty
    and not parseable, [execute] does not raise; it resolves with the default
    outcome [{ rowsAffected: 0, success: true }]. *)
Theorem execute_malformed_output_resolves_default
    db h (sql : string) (r : Run) (w : World) :
  run_succeeded r → malformed (stdout (java r)) →
  (Connection.execute db h sql r w).1 = Resolve Connection.execute_default.
Proof.
  intros Hrun [Hne Hparse].
  rewrite execute_run_succeeded by done.
  rewrite str_or_nonempty by done. by rewrite Hparse.
Qed.

Lemma execute_malformed_output_witness :
  (Connection.execute Sample.conn Sample.h "DELETE FROM orders"
     (Sample.prints "oops") Sample.w0).1
  = Resolve Connection.execute_default.
Proof.
  apply execute_malformed_output_resolves_default.
  - by vm_compute.
  - split; [by vm_compute | by vm_compute].
Defined.

(** C2, refuted as stated: on the output [oops] of a successful run,
    [simpleQuery] rejects instead of resolving with no rows. *)
Lemma read_decoding_lenient_counterexample : ¬ read_decoding_lenient.
Proof.
  intros H.
  specialize (H Sample.conn Sample.h Sample.tables (Sample.prints "oops")
                Sample.w0).
  assert (run_succeeded (Sample.prints "oops")) as Hrun by by vm_compute.
  assert (malformed "oops") as Hbad by (split; by vm_compute).
  specialize (H Hrun (or_introl Hbad)).
  vm_compute in H. discriminate.
Qed.

(** C2, as amended: when the child exits with status 0 and its error stream
    holds no sentinel, empty (or blank) output decodes to the empty result
    set and the read completes without an error, while malformed output
    makes the read fail with [Failed to parse results]. *)
Theorem simpleQuery_decoding db h (sql : string) (r : Run) (w : World) :
  run_succeeded r →
  (trim (stdout (java r)) = "" →
   (Connection.simpleQuery db h sql r w).1 = Resolve (VArray [])) ∧
  (malformed (stdout (java r)) →
   (Connection.simpleQuery db h sql r w).1
   = Reject (Error "Failed to parse results")).
Proof.
  intros Hrun. rewrite simpleQuery_run_succeeded by done. split.
  - intros ->. reflexivity.
  - intros [Hne Hparse]. rewrite str_or_nonempty by done. by rewrite Hparse.
Qed.

Lemma simpleQuery_decoding_witness :
  (Connection.simpleQuery Sample.conn Sample.h Sample.tables
     (Sample.prints "  ") Sample.w0).1 = Resolve (VArray []) ∧
  (Connection.simpleQuery Sample.conn Sample.h Sample.tables
     (Sample.prints "[{]") Sample.w0).1
  = Reject (Error "Failed to parse results").
Proof.
  split.
  - apply (simpleQuery_decoding Sample.conn Sample.h _ (Sample.prints "  ")).
    + by vm_compute.
    + by vm_compute.
  - apply (simpleQuery_decoding Sample.conn Sample.h _ (Sample.prints "[{]")).
    + by vm_compute.
    + split; [by vm_compute | by vm_compute].
Defined.

(** C3, at failing inputs: with the default timeout of 60000 ms and an entry
    stored at time 0, a call at time 500 with [cacheTtl: 100] is served from
    the cache although the entry is older than the override, and a call at
    time 70000 with [cacheTtl: 100000] goes to the bridge although the entry
    is younger than the override. *)
Theorem query_ignores_cacheTtl_override :
  let short := {| useCache := Some true; cacheTtl := Some 100 |} in
  let long := {| useCache := Some true; cacheTtl := Some 100000 |} in
  Service.query Sample.h (Sample.call 500 "[]") Sample.tables "[]" short
    Sample.sys
  = (Resolve {| rows := Sample.tables_rows; fromCache := true |},
     Sample.sys) ∧
  (Service.query Sample.h (Sample.call 70000 "[]") Sample.tables "[]" long
     Sample.sys).1
  = Resolve {| rows := VArray []; fromCache := false |}.
Proof.
  split.
  - apply (query_hit Sample.h _ _ _ _ _
             {| data := Sample.tables_rows; timestamp := 0 |});
      by vm_compute.
  - by vm_compute.
Qed.

(** C4: a call of [execute] that returns an outcome has delegated the
    statement to the bridge, whose result it returns, and has cleared the
    whole cache on the way, whatever the statement is: afterwards the cache
    map is empty, a lookup finds nothing for any fingerprint, and no query is
    served from the cache. *)
Theorem execute_clears_cache
    h (e : Service.CallEnv) (sql : string) (s s1 : System)
    (out : ExecuteResult) :
  Service.execute h e sql s = (Resolve out, s1) →
  (∃ s0 w', Service.init h (Service.at_init e) s = (Resolve tt, s0) ∧
            Connection.execute (db s0) h sql (Service.run e) (world s0)
            = (Resolve (result out), w') ∧
            success out = true) ∧
  cache (service s1) = ∅ ∧
  (∀ now key, (Service._getFromCache now key (service s1)).1 = VNull) ∧
  (∀ e' sql' params o r s2,
     Service.query h e' sql' params o s1 = (Resolve r, s2) →
     fromCache r = false).
Proof.
  unfold Service.execute.
  destruct (Service.init h (Service.at_init e) s) as [[[]|err] s0] eqn:Hinit;
    [|done].
  destruct (Connection.execute _ _ _ _ _) as [[r|err] w'] eqn:Hex; [|done].
  intros [= <- <-]. simpl.
  split; [by exists s0, w'|].
  split; [done|].
  split.
  - intros now key. by apply getFromCache_empty.
  - intros e' sql' params o r' s2. by apply query_empty_cache_misses.
Qed.

Lemma execute_clears_cache_witness :
  let out := {| success := true; result := Connection.execute_default |} in
  let s1 := (Service.execute Sample.h (Sample.call 500 "")
               "DELETE FROM orders" Sample.sys).2 in
  (∃ s0 w', Service.init Sample.h Sample.init_env Sample.sys
            = (Resolve tt, s0) ∧
            Connection.execute (db s0) Sample.h "DELETE FROM orders"
              (Sample.prints "") (world s0)
            = (Resolve (result out), w') ∧
            success out = true) ∧
  cache (service s1) = ∅ ∧
  (∀ now key, (Service._getFromCache now key (service s1)).1 = VNull) ∧
  (∀ e' sql' params o r s2,
     Service.query Sample.h e' sql' params o s1 = (Resolve r, s2) →
     fromCache r = false).
Proof.
  intros out s1.
  apply (execute_clears_cache Sample.h (Sample.call 500 "")
           "DELETE FROM orders" Sample.sys s1 out).
  by vm_compute.
Defined.

(** C5: after a call with caching on has fetched the rows through the
    bridge (the service being initialised, as it is once the server has
    started), any number of further calls for the same statement and
    parameters, with caching on and made while the entry is younger than the
    timeout, return the stored rows with [fromCache = true] and change
    nothing: over all the calls the bridge has been invoked exactly once. *)
Theorem repeated_queries_invoke_bridge_once
    h (e : Service.CallEnv) (sql params : string) (o : Options)
    (stored : list value) (s s1 : System)
    (calls : list (Service.CallEnv * Options)) :
  initialized (service s) = true → caching o →
  Service.query h e sql params o s
  = (Resolve {| rows := VArray stored; fromCache := false |}, s1) →
  Forall (λ c, caching c.2 ∧
               Service.now_get c.1 - Service.now_set e
               < cacheTimeout (service s1)) calls →
  Service.queries h calls sql params s1
  = (replicate (length calls)
       (Resolve {| rows := VArray stored; fromCache := true |}), s1) ∧
  Service.bridge_calls (world s1) = S (Service.bridge_calls (world s)).
Proof.
  intros Hi Ho Hq Hcalls.
  split; [|by eapply query_miss_bridge_calls].
  apply query_miss_stores in Hq as (Hi1 & _ & Hc); [|done].
  induction Hcalls as [|[e' o'] calls [Ho' Hage] _ IH]; [reflexivity|].
  simpl in *.
  rewrite (query_hit h e' sql params o' s1
             {| data := VArray stored; timestamp := Service.now_set e |})
    by done.
  simpl. by rewrite IH.
Qed.

Lemma repeated_queries_witness :
  let e := Sample.call 0 Sample.tables_output in
  let s1 := (Service.query Sample.h e Sample.tables "[]" Sample.cached
               Sample.fresh).2 in
  let calls := [ (Sample.call 500 "", Sample.cached);
                 (Sample.call 60039 "", Sample.cached) ] in
  Service.queries Sample.h calls Sample.tables "[]" s1
  = (replicate (length calls)
       (Resolve {| rows := Sample.tables_rows; fromCache := true |}), s1) ∧
  Service.bridge_calls (world s1) = S (Service.bridge_calls (world Sample.fresh)).
Proof.
  intros e s1 calls.
  apply (repeated_queries_invoke_bridge_once Sample.h e Sample.tables "[]"
           Sample.cached _ Sample.fresh s1 calls).
  - reflexivity.
  - reflexivity.
  - by vm_compute.
  - repeat constructor; by vm_compute.
Defined.

(** C6: a lookup of an entry whose age has reached the timeout returns
    [null] and removes the entry from the cache map in the same step, with no
    write in between; an entry whose age is strictly below the timeout is
    returned as stored and the cache is left as it was. *)
Theorem getFromCache_lazy_expiry
    (s : DatabaseService) (key : string) (c : CacheEntry) (now : Z) :
  cache s !! key = Some c →
  (cacheTimeout s ≤ now - timestamp c →
   (Service._getFromCache now key s).1 = VNull ∧
   cache (Service._getFromCache now key s).2 = delete key (cache s) ∧
   cache (Service._getFromCache now key s).2 !! key = None) ∧
  (now - timestamp c < cacheTimeout s →
   Service._getFromCache now key s = (data c, s)).
Proof.
  intros Hc. split.
  - intros Hage. rewrite (getFromCache_expired s key c) by done. simpl.
    by rewrite lookup_delete_eq.
  - intros Hage. by apply getFromCache_fresh.
Qed.

Lemma getFromCache_lazy_expiry_witness :
  let key := Service._getCacheKey Sample.tables "[]" in
  ((Service._getFromCache 60000 key Sample.svc).1 = VNull ∧
   cache (Service._getFromCache 60000 key Sample.svc).2
   = delete key (cache Sample.svc) ∧
   cache (Service._getFromCache 60000 key Sample.svc).2 !! key = None) ∧
  Service._getFromCache 59999 key Sample.svc
  = (Sample.tables_rows, Sample.svc).
Proof.
  intros key.
  pose (c := {| data := Sample.tables_rows; timestamp := 0 |}).
  assert (cache Sample.svc !! key = Some c) as Hc by by vm_compute.
  split.
  - apply (proj1 (getFromCache_lazy_expiry Sample.svc key c 60000 Hc)).
    by vm_compute.
  - apply (proj2 (getFromCache_lazy_expiry Sample.svc key c 59999 Hc)).
    by vm_compute.
Defined.

(** C7, refuted as stated: two [simpleQuery] calls for different statements
    write the same path, and the source of the first is lost to the second. *)
Lemma in_flight_independent_counterexample : ¬ in_flight_independent.
Proof.
  intros H.
  destruct (H Sample.h Sample.conn
              Connection.SimpleQuery Sample.tables
              Connection.SimpleQuery Sample.columns
              Sample.w0) as [H1 _].
  - intros [=].
  - vm_compute in H1. discriminate.
Qed.

(** C7, as amended: a bridge call allocates no identifier; the paths of its
    artifacts are fixed by the operation alone ([InformixQuery.java] and
    [InformixQuery.class] for [simpleQuery], [InformixExecute.java] and
    [InformixExecute.class] for [execute], in the temporary directory). The
    artifacts of the two operations are disjoint and no stage of a call
    touches a file outside the artifacts of its own operation, so a
    [simpleQuery] call and an [execute] call in flight never target each
    other's artifacts. *)
Theorem artifacts_fixed_per_operation
    h db (op op' : Connection.BridgeOp) (st : Connection.stage) (w : World)
    (p : string) :
  op ≠ op' → p ∈ artifacts h op' →
  (p ∉ artifacts h op) ∧ fs (Connection.step db h op st w) !! p = fs w !! p.
Proof.
  intros Hop Hp.
  assert (p ∉ artifacts h op) as Hnot.
  { destruct op, op'; try done.
    - intros Hq. by apply (artifacts_disjoint h p Hq).
    - by apply artifacts_disjoint. }
  split; [done|].
  destruct st as [sql|c|c]; simpl.
  - by apply started_frame.
  - by apply compile_closed_frame.
  - destruct op.
    + by apply simpleQuery_closed_frame.
    + by apply execute_closed_frame.
Qed.

Lemma artifacts_fixed_per_operation_witness :
  ("/tmp/InformixExecute.class" ∉ artifacts Sample.h Connection.SimpleQuery) ∧
  fs (Connection.step Sample.conn Sample.h Connection.SimpleQuery
        (Connection.Start Sample.tables) Sample.w0)
    !! "/tmp/InformixExecute.class"
  = fs Sample.w0 !! "/tmp/InformixExecute.class".
Proof.
  apply (artifacts_fixed_per_operation Sample.h Sample.conn
           Connection.SimpleQuery Connection.Execute).
  - discriminate.
  - vm_compute. apply list_elem_of_In. right. by left.
Defined.

(** C8, at the failing exit path: when the compilation fails, the call
    rejects with the compiler's diagnostics and the generated source is still
    in the temporary directory when it returns, for [simpleQuery] and for
    [execute] alike. *)
Theorem compile_failure_leaves_source
    h db (sql : string) (r : Run) (w : World) :
  code (javac r) ≠ 0 →
  (∃ w', Connection.simpleQuery db h sql r w
         = (Reject (Error ("Compilation failed: " +:+ stderr (javac r))), w') ∧
         fs w' !! Connection.javaFile h Connection.SimpleQuery
         = Some (Text (Connection.javaCode db h Connection.SimpleQuery sql))) ∧
  (∃ w', Connection.execute db h sql r w
         = (Reject (Error ("Compilation failed: " +:+ stderr (javac r))), w') ∧
         fs w' !! Connection.javaFile h Connection.Execute
         = Some (Text (Connection.javaCode db h Connection.Execute sql))).
Proof.
  intros Hcode. apply Z.eqb_neq in Hcode.
  split; eexists; (split; [|shelve]).
  - unfold Connection.simpleQuery, Connection.compile_closed.
    rewrite Hcode. simpl. reflexivity.
  - unfold Connection.execute, Connection.compile_closed.
    rewrite Hcode. simpl. reflexivity.
  Unshelve.
  + unfold compiled. simpl. rewrite lookup_insert_eq.
    rewrite Hcode. simpl. by rewrite lookup_insert_eq.
  + unfold compiled. simpl. rewrite lookup_insert_eq.
    rewrite Hcode. simpl. by rewrite lookup_insert_eq.
Qed.

Lemma compile_failure_leaves_source_witness :
  let r := {| javac := Sample.failed "InformixQuery.java:14: error";
              java := Sample.ok "" |} in
  (∃ w', Connection.simpleQuery Sample.conn Sample.h Sample.tables r Sample.w0
         = (Reject (Error ("Compilation failed: " +:+ stderr (javac r))), w') ∧
         fs w' !! Connection.javaFile Sample.h Connection.SimpleQuery
         = Some (Text (Connection.javaCode Sample.conn Sample.h
                         Connection.SimpleQuery Sample.tables))) ∧
  (∃ w', Connection.execute Sample.conn Sample.h Sample.tables r Sample.w0
         = (Reject (Error ("Compilation failed: " +:+ stderr (javac r))), w') ∧
         fs w' !! Connection.javaFile Sample.h Connection.Execute
         = Some (Text (Connection.javaCode Sample.conn Sample.h
                         Connection.Execute Sample.tables))).
Proof.
  apply compile_failure_leaves_source. simpl. lia.
Defined.

(** C9, at a failing input: the statement of the columns route runs over
    several lines; its line feeds pass through the escaping untouched, so the
    text between the quotes of [executeQuery(...)] is not a string literal of
    the generated program, whatever the table name. *)
Theorem columns_statement_breaks_literal h db (tableName : string) :
  let sql := Routes.columns_statement tableName in
  let embedded := q +:+ Connection.escapeSql sql +:+ q
                    +:+ Connection.simpleQuery_tail in
  Connection.javaCode db h Connection.SimpleQuery sql
  = Connection.simpleQuery_head db h +:+ embedded ∧
  Java.string_literal embedded = Java.Malformed.
Proof.
  split; [reflexivity|].
  unfold Routes.columns_statement.
  replace (Java.string_literal _) with
    (Java.string_characters
       (Connection.escapeSql
          ("SELECT c.colname, c.coltype, c.collength " +:+ Routes.nl +:+
           "       FROM syscolumns c, systables t " +:+ Routes.nl +:+
           "       WHERE c.tabid = t.tabid AND t.tabname = '" +:+ tableName
           +:+ "' " +:+ Routes.nl +:+ "       ORDER BY c.colno")
        +:+ q +:+ Connection.simpleQuery_tail)) by reflexivity.
  by apply escapeSql_line_feed.
Qed.

(** C10: a query that fetched zero rows stores the empty array like any other
    result, and the same query repeated with caching on while the entry is
    younger than the timeout returns that empty array with
    [fromCache = true]: the empty result is a hit, not a miss. *)
Theorem empty_result_is_cached
    h (e1 e2 : Service.CallEnv) (sql params : string) (o1 o2 : Options)
    (s s1 : System) :
  caching o1 → caching o2 →
  Service.query h e1 sql params o1 s
  = (Resolve {| rows := VArray []; fromCache := false |}, s1) →
  Service.now_get e2 - Service.now_set e1 < cacheTimeout (service s1) →
  cache (service s1) !! Service._getCacheKey sql params
  = Some {| data := VArray []; timestamp := Service.now_set e1 |} ∧
  Service.query h e2 sql params o2 s1
  = (Resolve {| rows := VArray []; fromCache := true |}, s1).
Proof.
  intros Ho1 Ho2 Hq Hage.
  apply query_miss_stores in Hq as (Hi1 & _ & Hc); [|done].
  split; [done|].
  by apply (query_hit h e2 sql params o2 s1
              {| data := VArray []; timestamp := Service.now_set e1 |}).
Qed.

Lemma empty_result_is_cached_witness :
  let e1 := Sample.call 0 "[]" in
  let e2 := Sample.call 500 "" in
  let s1 := (Service.query Sample.h e1 Sample.tables "[]" Sample.cached
               Sample.fresh).2 in
  cache (service s1) !! Service._getCacheKey Sample.tables "[]"
  = Some {| data := VArray []; timestamp := Service.now_set e1 |} ∧
  Service.query Sample.h e2 Sample.tables "[]" Sample.cached s1
  = (Resolve {| rows := VArray []; fromCache := true |}, s1).
Proof.
  intros e1 e2 s1.
  apply (empty_result_is_cached Sample.h e1 e2 Sample.tables "[]"
           Sample.cached Sample.cached Sample.fresh s1).
  - reflexivity.
  - reflexivity.
  - by vm_compute.
  - by vm_compute.
Defined.

(** * Further properties of the service *)

Section ServiceMore.

Import Service.

Context (h : Host).

Lemma execute_bridge_calls conn (sql : string) (r : Run) (w : World) :
  bridge_calls (Connection.execute conn h sql r w).2 = S (bridge_calls w).
Proof.
  unfold Connection.execute, Connection.compile_closed.
  destruct (negb (code (javac r) =? 0)); simpl.
  - unfold bridge_calls. by rewrite spawned_compiled.
  - unfold Connection.execute_closed.
    repeat case_match; simpl; unfold bridge_calls;
      by rewrite spawned_cleanup; simpl; rewrite spawned_compiled.
Qed.

Lemma testConnection_bridge_calls conn (r : Run) (w : World) :
  bridge_calls (Connection.testConnection conn h r w).2 = S (bridge_calls w).
Proof.
  unfold Connection.testConnection.
  pose proof (simpleQuery_bridge_calls h conn
                "SELECT FIRST 1 1 FROM systables" r w) as Hn.
  by destruct (Connection.simpleQuery _ _ _ _ _) as [[v|err] w'].
Qed.

(** What [init] leaves alone, whether it resolves or not. *)
Lemma init_keeps_cache (e : Connection.InitEnv) (s : System) :
  cache (service (init h e s).2) = cache (service s) ∧
  cacheTimeout (service (init h e s).2) = cacheTimeout (service s).
Proof.
  unfold init. destruct (initialized (service s)); [done|].
  by destruct (Connection.initialize _ _ _ _) as [[[]]].
Qed.

Lemma init_rejected (e : Connection.InitEnv) (s s1 : System) (err : jserror) :
  init h e s = (Reject err, s1) → service s1 = service s.
Proof.
  unfold init. destruct (initialized (service s)); [done|].
  destruct (Connection.initialize _ _ _ _) as [[[]]]; by intros [= _ <-].
Qed.

(** A bridge error leaves [execute] through its [catch]. *)
Lemma execute_rejected (e : CallEnv) (sql : string) (s : System)
    (err : jserror) (w' : World) :
  initialized (service s) = true →
  Connection.execute (db s) h sql (run e) (world s) = (Reject err, w') →
  execute h e sql s
  = (Reject (ServiceError "Execute failed" (message_of err) "EXECUTE_ERROR"),
     {| service := service s; db := db s; world := w' |}).
Proof.
  intros Hi Hex. unfold execute. rewrite init_initialized by done.
  by rewrite Hex.
Qed.

End ServiceMore.

(** X1: a result stored under a key is what a lookup of that key returns for
    as long as its age is below the time-out, and the lookup leaves the store
    as it is; storing under one key changes the answer for no other key. *)
Theorem setCache_then_getFromCache
    (s : DatabaseService) (key key' : string) (d : value) (t now : Z) :
  now - t < cacheTimeout s → key' ≠ key →
  Service._getFromCache now key (Service._setCache t key d s)
  = (d, Service._setCache t key d s) ∧
  (Service._getFromCache now key' (Service._setCache t key d s)).1
  = (Service._getFromCache now key' s).1.
Proof.
  intros Hage Hne. split.
  - apply (getFromCache_fresh _ key {| data := d; timestamp := t |}); [|done].
    simpl. by rewrite lookup_insert_eq.
  - unfold Service._getFromCache. simpl.
    rewrite lookup_insert_ne by done.
    by repeat case_match.
Qed.

Lemma setCache_then_getFromCache_witness :
  let key := Service._getCacheKey Sample.columns "[]" in
  let key' := Service._getCacheKey Sample.tables "[]" in
  Service._getFromCache 1500 key (Service._setCache 1000 key (VArray []) Sample.svc)
  = (VArray [], Service._setCache 1000 key (VArray []) Sample.svc) ∧
  (Service._getFromCache 1500 key'
     (Service._setCache 1000 key (VArray []) Sample.svc)).1
  = (Service._getFromCache 1500 key' Sample.svc).1.
Proof.
  intros key key'.
  apply (setCache_then_getFromCache Sample.svc key key' (VArray []) 1000 1500).
  - by vm_compute.
  - by vm_compute.
Defined.

(** X2: with [useCache: false] an initialised service neither reads nor writes
    its cache: the service object is unchanged, the bridge is invoked exactly
    once, and a call that resolves hands back the rows of the bridge with
    [fromCache: false]. *)
Theorem query_without_cache
    h (e : Service.CallEnv) (sql params : string) (t : option Z) (s : System) :
  initialized (service s) = true →
  let call := Service.query h e sql params
                {| useCache := Some false; cacheTtl := t |} s in
  service call.2 = service s ∧
  Service.bridge_calls (world call.2) = S (Service.bridge_calls (world s)) ∧
  (∀ r, call.1 = Resolve r →
        fromCache r = false ∧
        (Connection.simpleQuery (db s) h sql (Service.run e) (world s)).1
        = Resolve (rows r)).
Proof.
  intros Hi call. subst call. unfold Service.query.
  rewrite init_initialized by done. simpl.
  pose proof (simpleQuery_bridge_calls h (db s) sql (Service.run e) (world s))
    as Hn.
  destruct (Connection.simpleQuery _ _ _ _ _) as [[d|err] w']; simpl in *.
  - split; [done|]. split; [done|]. by intros r [= <-].
  - split; [done|]. split; [done|]. by intros r.
Qed.

Lemma query_without_cache_witness :
  let call := Service.query Sample.h (Sample.call 500 "[]") Sample.tables "[]"
                {| useCache := Some false; cacheTtl := None |} Sample.sys in
  service call.2 = service Sample.sys ∧
  Service.bridge_calls (world call.2)
  = S (Service.bridge_calls (world Sample.sys)) ∧
  (∀ r, call.1 = Resolve r →
        fromCache r = false ∧
        (Connection.simpleQuery (db Sample.sys) Sample.h Sample.tables
           (Service.run (Sample.call 500 "[]")) (world Sample.sys)).1
        = Resolve (rows r)).
Proof.
  apply (query_without_cache Sample.h (Sample.call 500 "[]") Sample.tables
           "[]" None Sample.sys).
  reflexivity.
Defined.

(** X3: when the bridge rejects a query for which there is no entry, [query]
    throws the [ServiceError] [Query failed] with code [QUERY_ERROR] and the
    message of the bridge as details, and the service, cache included, is as
    it was. *)
Theorem query_failure_stores_nothing
    h (e : Service.CallEnv) (sql params : string) (o : Options) (s : System)
    (err : jserror) (w' : World) :
  initialized (service s) = true →
  cache (service s) !! Service._getCacheKey sql params = None →
  Connection.simpleQuery (db s) h sql (Service.run e) (world s)
  = (Reject err, w') →
  Service.query h e sql params o s
  = (Reject (ServiceError "Query failed" (message_of err) "QUERY_ERROR"),
     {| service := service s; db := db s; world := w' |}).
Proof.
  intros Hi Hnone Hq. unfold Service.query.
  rewrite init_initialized by done.
  unfold Service._getFromCache. rewrite Hnone, Hq.
  rewrite (delete_id (cache (service s))) by done.
  destruct (default true (useCache o)); simpl; by destruct s as [[]].
Qed.

Lemma query_failure_witness :
  Service.query Sample.h
    {| Service.at_init := Sample.init_env; Service.now_get := 500;
       Service.run := Sample.fails; Service.now_set := 540 |}
    Sample.tables "[]" Sample.cached Sample.fresh
  = (Reject (ServiceError "Query failed" "ERROR: no such table" "QUERY_ERROR"),
     {| service := service Sample.fresh; db := db Sample.fresh;
        world := (Connection.simpleQuery Sample.conn Sample.h Sample.tables
                    Sample.fails Sample.w0).2 |}).
Proof.
  apply (query_failure_stores_nothing Sample.h _ Sample.tables "[]"
           Sample.cached Sample.fresh (Error "ERROR: no such table")).
  - reflexivity.
  - reflexivity.
  - by vm_compute.
Defined.

(** X4: a caching query that finds an entry as old as the time-out, or older,
    goes to the bridge, answers with the new rows and [fromCache: false], and
    replaces the entry by the new rows stamped with the time of storing. *)
Theorem query_refetches_expired_entry
    h (e : Service.CallEnv) (sql params : string) (o : Options) (s : System)
    (c : CacheEntry) (d : value) (w' : World) :
  initialized (service s) = true → caching o →
  cache (service s) !! Service._getCacheKey sql params = Some c →
  cacheTimeout (service s) ≤ Service.now_get e - timestamp c →
  Connection.simpleQuery (db s) h sql (Service.run e) (world s)
  = (Resolve d, w') →
  Service.query h e sql params o s
  = (Resolve {| rows := d; fromCache := false |},
     {| service :=
          Service._setCache (Service.now_set e)
            (Service._getCacheKey sql params) d (service s);
        db := db s; world := w' |}).
Proof.
  intros Hi Ho Hc Hage Hq. unfold Service.query.
  rewrite init_initialized by done. rewrite Ho.
  rewrite (getFromCache_expired _ _ c) by done.
  simpl. rewrite Hq. do 2 f_equal.
  unfold Service._setCache, Service.set_cache. simpl.
  by rewrite insert_delete_eq.
Qed.

Lemma query_refetches_expired_entry_witness :
  Service.query Sample.h (Sample.call 60000 "[]") Sample.tables "[]"
    Sample.cached Sample.sys
  = (Resolve {| rows := VArray []; fromCache := false |},
     {| service :=
          Service._setCache 60040 (Service._getCacheKey Sample.tables "[]")
            (VArray []) (service Sample.sys);
        db := db Sample.sys;
        world := (Connection.simpleQuery Sample.conn Sample.h Sample.tables
                    (Sample.prints "[]") Sample.w0).2 |}).
Proof.
  apply (query_refetches_expired_entry Sample.h (Sample.call 60000 "[]")
           Sample.tables "[]" Sample.cached Sample.sys
           {| data := Sample.tables_rows; timestamp := 0 |}).
  - reflexivity.
  - reflexivity.
  - by vm_compute.
  - by vm_compute.
  - by vm_compute.
Defined.

(** X5: rows that JavaScript takes for false ([null], [0], [false], the empty
    text) are stored by a caching query like any others, but the next query
    for the same statement, however soon it comes, invokes the bridge again
    and is not answered from the cache. *)
Theorem falsy_rows_never_served
    h (e1 e2 : Service.CallEnv) (sql params : string) (o1 o2 : Options)
    (s s1 : System) (d : value) :
  caching o1 → caching o2 →
  Service.query h e1 sql params o1 s
  = (Resolve {| rows := d; fromCache := false |}, s1) →
  truthy d = false →
  Service.now_get e2 - Service.now_set e1 < cacheTimeout (service s1) →
  let again := Service.query h e2 sql params o2 s1 in
  cache (service s1) !! Service._getCacheKey sql params
  = Some {| data := d; timestamp := Service.now_set e1 |} ∧
  Service.bridge_calls (world again.2) = S (Service.bridge_calls (world s1)) ∧
  (∀ r, again.1 = Resolve r → fromCache r = false).
Proof.
  intros Ho1 Ho2 Hq Hf Hage again.
  apply (query_miss_stores h) in Hq as (Hi1 & _ & Hc); [|done].
  split; [done|]. subst again. unfold Service.query.
  rewrite init_initialized by done. rewrite Ho2.
  rewrite (getFromCache_fresh _ _ _ _ Hc) by done. simpl. rewrite Hf. simpl.
  pose proof (simpleQuery_bridge_calls h (db s1) sql (Service.run e2)
                (world s1)) as Hn.
  destruct (Connection.simpleQuery _ _ _ _ _) as [[d'|err] w']; simpl in *.
  - split; [done|]. by intros r [= <-].
  - split; [done|]. by intros r.
Qed.

Lemma falsy_rows_never_served_witness :
  let e1 := Sample.call 0 "null" in
  let e2 := Sample.call 500 "null" in
  let s1 := (Service.query Sample.h e1 Sample.tables "[]" Sample.cached
               Sample.fresh).2 in
  let again := Service.query Sample.h e2 Sample.tables "[]" Sample.cached s1 in
  cache (service s1) !! Service._getCacheKey Sample.tables "[]"
  = Some {| data := VNull; timestamp := Service.now_set e1 |} ∧
  Service.bridge_calls (world again.2) = S (Service.bridge_calls (world s1)) ∧
  (∀ r, again.1 = Resolve r → fromCache r = false).
Proof.
  intros e1 e2 s1 again.
  apply (falsy_rows_never_served Sample.h e1 e2 Sample.tables "[]"
           Sample.cached Sample.cached Sample.fresh s1 VNull).
  - reflexivity.
  - reflexivity.
  - by vm_compute.
  - reflexivity.
  - by vm_compute.
Defined.

(** X6: when the bridge rejects a write, [execute] throws the [ServiceError]
    [Execute failed] with code [EXECUTE_ERROR] and the message of the bridge
    as details, and the cache is not cleared: every entry that was fresh and
    truthy is still served afterwards. *)
Theorem execute_failure_keeps_entries
    h (e : Service.CallEnv) (sql : string) (s : System) (err : jserror)
    (w' : World) :
  initialized (service s) = true →
  Connection.execute (db s) h sql (Service.run e) (world s) = (Reject err, w') →
  Service.execute h e sql s
  = (Reject (ServiceError "Execute failed" (message_of err) "EXECUTE_ERROR"),
     {| service := service s; db := db s; world := w' |}) ∧
  (∀ e' sql' params o c,
     caching o →
     cache (service s) !! Service._getCacheKey sql' params = Some c →
     Service.now_get e' - timestamp c < cacheTimeout (service s) →
     truthy (data c) = true →
     (Service.query h e' sql' params o
        {| service := service s; db := db s; world := w' |}).1
     = Resolve {| rows := data c; fromCache := true |}).
Proof.
  intros Hi Hex. split.
  - by apply execute_rejected.
  - intros e' sql' params o c Ho Hc Hage Ht.
    by rewrite (query_hit h e' sql' params o _ c).
Qed.

Lemma execute_failure_keeps_entries_witness :
  let e := {| Service.at_init := Sample.init_env; Service.now_get := 500;
              Service.run := Sample.fails; Service.now_set := 540 |} in
  let w' := (Connection.execute Sample.conn Sample.h "DELETE FROM orders"
               Sample.fails Sample.w0).2 in
  Service.execute Sample.h e "DELETE FROM orders" Sample.sys
  = (Reject (ServiceError "Execute failed" "ERROR: no such table"
               "EXECUTE_ERROR"),
     {| service := service Sample.sys; db := db Sample.sys; world := w' |}) ∧
  (Service.query Sample.h (Sample.call 900 "") Sample.tables "[]" Sample.cached
     {| service := service Sample.sys; db := db Sample.sys; world := w' |}).1
  = Resolve {| rows := Sample.tables_rows; fromCache := true |}.
Proof.
  intros e w'.
  destruct (execute_failure_keeps_entries Sample.h e "DELETE FROM orders"
              Sample.sys (Error "ERROR: no such table") w') as [H1 H2].
  - reflexivity.
  - by vm_compute.
  - split; [exact H1|].
    apply (H2 (Sample.call 900 "") Sample.tables "[]" Sample.cached
             {| data := Sample.tables_rows; timestamp := 0 |});
      by vm_compute.
Defined.

(** X7: on a service that is not initialised, when [java -version] cannot be
    run, [query] and [execute] fail with the plain error [Java is not
    installed or not in PATH], which no [ServiceError] wraps; the service
    stays uninitialised, the JDBC URL is recorded, and the bridge is not
    invoked. *)
Theorem calls_without_java_fail_unwrapped
    h (e : Service.CallEnv) (sql params : string) (o : Options) (s : System) :
  initialized (service s) = false → isInitialized (db s) = false →
  Connection.java_found (Service.at_init e) = false →
  let s' := {| service := service s;
               db := {| isInitialized := false;
                        jdbcUrl := Some (Connection.buildJdbcUrl h) |};
               world := spawn "java -version" [] (world s) |} in
  Service.query h e sql params o s
  = (Reject (Error "Java is not installed or not in PATH"), s') ∧
  Service.execute h e sql s
  = (Reject (Error "Java is not installed or not in PATH"), s') ∧
  Service.bridge_calls (world s') = Service.bridge_calls (world s).
Proof.
  intros Hi Hdb Hj s'.
  assert (Service.init h (Service.at_init e) s
          = (Reject (Error "Java is not installed or not in PATH"), s'))
    as Hinit.
  { unfold Service.init, Connection.initialize. by rewrite Hi, Hdb, Hj. }
  unfold Service.query, Service.execute. by rewrite Hinit.
Qed.

Lemma calls_without_java_witness :
  let e := {| Service.at_init :=
                {| Connection.java_found := false;
                   Connection.test_run := Sample.prints "[]" |};
              Service.now_get := 0; Service.run := Sample.prints "[]";
              Service.now_set := 40 |} in
  let s' := {| service := service Sample.cold;
               db := {| isInitialized := false;
                        jdbcUrl := Some (Connection.buildJdbcUrl Sample.h) |};
               world := spawn "java -version" [] (world Sample.cold) |} in
  Service.query Sample.h e Sample.tables "[]" Sample.cached Sample.cold
  = (Reject (Error "Java is not installed or not in PATH"), s') ∧
  Service.execute Sample.h e Sample.tables Sample.cold
  = (Reject (Error "Java is not installed or not in PATH"), s') ∧
  Service.bridge_calls (world s') = Service.bridge_calls (world Sample.cold).
Proof.
  intros e s'.
  apply (calls_without_java_fail_unwrapped Sample.h e Sample.tables "[]"
           Sample.cached Sample.cold); reflexivity.
Defined.

(** An initialisation that had to be done and went through has run the
    connection test once. *)
Lemma init_cold_resolved h (e : Connection.InitEnv) (s s1 : System) (u : unit) :
  initialized (service s) = false → isInitialized (db s) = false →
  Service.init h e s = (Resolve u, s1) →
  isInitialized (db s1) = true ∧
  jdbcUrl (db s1) = Some (Connection.buildJdbcUrl h) ∧
  Service.bridge_calls (world s1) = S (Service.bridge_calls (world s)).
Proof.
  intros Hi Hdb. unfold Service.init, Connection.initialize.
  rewrite Hi, Hdb.
  destruct (negb (Connection.java_found e)); [done|].
  pose proof (testConnection_bridge_calls h
                {| isInitialized := false;
                   jdbcUrl := Some (Connection.buildJdbcUrl h) |}
                (Connection.test_run e)
                (spawn "java -version" [] (world s))) as Hn.
  destruct (Connection.testConnection _ _ _ _) as [[b|err] w2]; [|done].
  intros H. injection H as _ <-. simpl in *. done.
Qed.

(** X8: [shutdown] done twice is [shutdown] done once, and a query that
    resolves after a shutdown is not answered from the cache, finds service
    and connection initialised again, and has invoked the bridge twice: once
    for the connection test and once for the statement. *)
Theorem query_after_shutdown_starts_over
    h (e : Service.CallEnv) (sql params : string) (o : Options)
    (s s1 : System) (out : QueryResult) :
  Service.query h e sql params o (Service.shutdown s) = (Resolve out, s1) →
  Service.shutdown (Service.shutdown s) = Service.shutdown s ∧
  fromCache out = false ∧
  initialized (service s1) = true ∧ isInitialized (db s1) = true ∧
  Service.bridge_calls (world s1) = (Service.bridge_calls (world s) + 2)%nat.
Proof.
  intros Hq. split; [reflexivity|].
  split; [by eapply (query_empty_cache_misses h); [|exact Hq]|].
  revert Hq. unfold Service.query.
  destruct (Service.init h (Service.at_init e) (Service.shutdown s))
    as [[u|err] s0] eqn:Hinit; [|done].
  pose proof (init_resolved h _ _ _ _ Hinit) as (Hi0 & Hc0 & _).
  apply init_cold_resolved in Hinit as (Hdb0 & _ & Hn0); [|done..].
  simpl in Hn0, Hc0.
  assert ((if default true (useCache o)
           then Service._getFromCache (Service.now_get e)
                  (Service._getCacheKey sql params) (service s0)
           else (VNull, service s0))
          = (VNull, service s0)) as ->.
  { destruct (default true (useCache o)); [|done].
    unfold Service._getFromCache. rewrite Hc0, lookup_empty, delete_empty.
    unfold Service.set_cache. rewrite <- Hc0. by destruct (service s0). }
  rewrite andb_false_r.
  pose proof (simpleQuery_bridge_calls h (db s0) sql (Service.run e)
                (world s0)) as Hn.
  destruct (Connection.simpleQuery _ _ _ _ _) as [[d|err] w']; [|done].
  intros [= <- <-]. simpl in *.
  destruct (default true (useCache o)); simpl; repeat split; try done; lia.
Qed.

Lemma query_after_shutdown_witness :
  let run := Service.query Sample.h (Sample.call 500 "[]") Sample.tables "[]"
               Sample.cached (Service.shutdown Sample.sys) in
  Service.shutdown (Service.shutdown Sample.sys) = Service.shutdown Sample.sys ∧
  fromCache {| rows := VArray []; fromCache := false |} = false ∧
  initialized (service run.2) = true ∧ isInitialized (db run.2) = true ∧
  Service.bridge_calls (world run.2)
  = (Service.bridge_calls (world Sample.sys) + 2)%nat.
Proof.
  intros run.
  apply (query_after_shutdown_starts_over Sample.h (Sample.call 500 "[]")
           Sample.tables "[]" Sample.cached Sample.sys run.2).
  by vm_compute.
Defined.

Section Transaction.

Import Service.

Context (h : Host).

Lemma transaction_loop_resolved conn (runs : nat → Run)
    (queries : list (string * string)) (i : nat) (acc results : list value)
    (w w' : World) :
  transaction_loop h conn runs i queries acc w = (Resolve results, w') →
  ∃ new, results = acc ++ new ∧ length new = length queries ∧
         bridge_calls w' = (bridge_calls w + length queries)%nat ∧
         ∀ k sql params, queries !! k = Some (sql, params) →
           ∃ v wk, new !! k = Some v ∧
                   (Connection.simpleQuery conn h sql (runs (i + k)%nat) wk).1
                   = Resolve v.
Proof.
  revert i acc w. induction queries as [|[sql params] rest IH]; intros i acc w.
  - intros [= <- <-]. exists []. rewrite app_nil_r.
    repeat split; [simpl; lia | by intros k ? ? ?].
  - simpl.
    pose proof (simpleQuery_bridge_calls h conn sql (runs i) w) as Hn.
    destruct (Connection.simpleQuery conn h sql (runs i) w) as [[r|err] w1]
      eqn:Hq; [|done].
    intros (new & -> & Hlen & Hcalls & Hall)%IH. simpl in Hn.
    exists (r :: new). rewrite <- app_assoc. simpl.
    repeat split; [by rewrite Hlen | lia |].
    intros [|k] sql' params' Hk; simpl in Hk.
    + injection Hk as <- <-. exists r, w. rewrite Nat.add_0_r, Hq. done.
    + destruct (Hall k sql' params' Hk) as (v & wk & Hv & Hr).
      exists v, wk. split; [done|].
      by replace (i + S k)%nat with (S i + k)%nat by lia.
Qed.

Lemma transaction_loop_rejected conn (runs : nat → Run)
    (queries : list (string * string)) (i : nat) (acc : list value)
    (w w' : World) (err : jserror) :
  transaction_loop h conn runs i queries acc w = (Reject err, w') →
  ∃ k sql params wk,
    queries !! k = Some (sql, params) ∧
    (Connection.simpleQuery conn h sql (runs (i + k)%nat) wk).1 = Reject err ∧
    bridge_calls w' = (bridge_calls w + S k)%nat.
Proof.
  revert i acc w. induction queries as [|[sql params] rest IH]; intros i acc w.
  - done.
  - simpl.
    pose proof (simpleQuery_bridge_calls h conn sql (runs i) w) as Hn.
    destruct (Connection.simpleQuery conn h sql (runs i) w) as [[r|e0] w1]
      eqn:Hq.
    + intros (k & sql' & params' & wk & Hk & Hr & Hcalls)%IH. simpl in Hn.
      exists (S k), sql', params', wk. repeat split; [done | | lia].
      by replace (i + S k)%nat with (S i + k)%nat by lia.
    + intros [= <- <-]. simpl in Hn.
      exists 0%nat, sql, params, w. rewrite Nat.add_0_r, Hq.
      repeat split; try done; lia.
Qed.

End Transaction.

(** X9: a transaction that resolves on an initialised service reports
    success, holds one result for each statement, in the order of the
    statements, each the result [simpleQuery] resolved with, has emptied the
    cache, and has invoked the bridge once for each statement. *)
Theorem transaction_runs_every_statement
    h (e : Connection.InitEnv) (runs : nat → Run)
    (queries : list (string * string)) (s s1 : System)
    (out : TransactionResult) :
  initialized (service s) = true →
  Service.transaction h e runs queries s = (Resolve out, s1) →
  t_success out = true ∧
  length (results out) = length queries ∧
  (∀ k sql params, queries !! k = Some (sql, params) →
     ∃ v wk, results out !! k = Some v ∧
             (Connection.simpleQuery (db s) h sql (runs k) wk).1 = Resolve v) ∧
  cache (service s1) = ∅ ∧
  Service.bridge_calls (world s1)
  = (Service.bridge_calls (world s) + length queries)%nat.
Proof.
  intros Hi. unfold Service.transaction. rewrite init_initialized by done.
  destruct (Service.transaction_loop _ _ _ _ _ _ _) as [[rs|err] w'] eqn:Hl;
    [|done].
  apply transaction_loop_resolved in Hl as (new & -> & Hlen & Hcalls & Hall).
  intros [= <- <-]. simpl. repeat split; try done.
Qed.

Lemma transaction_runs_every_statement_witness :
  let queries := [(Sample.tables, "[]"); (Sample.columns, "[]")] in
  let runs := λ k : nat, match k with
                         | O => Sample.prints Sample.tables_output
                         | _ => Sample.prints "[]"
                         end in
  let call := Service.transaction Sample.h Sample.init_env runs queries
                Sample.sys in
  let out := {| t_success := true;
                results := [Sample.tables_rows; VArray []] |} in
  t_success out = true ∧
  length (results out) = length queries ∧
  (∀ k sql params, queries !! k = Some (sql, params) →
     ∃ v wk, results out !! k = Some v ∧
             (Connection.simpleQuery (db Sample.sys) Sample.h sql (runs k) wk).1
             = Resolve v) ∧
  cache (service call.2) = ∅ ∧
  Service.bridge_calls (world call.2)
  = (Service.bridge_calls (world Sample.sys) + length queries)%nat.
Proof.
  intros queries runs call out.
  apply (transaction_runs_every_statement Sample.h Sample.init_env runs queries
           Sample.sys call.2 out).
  - reflexivity.
  - by vm_compute.
Defined.

(** X10: a transaction that throws on an initialised service throws the
    [ServiceError] [Transaction failed] with code [TRANSACTION_ERROR] and the
    message of the statement that failed; for a failure at position [k] the
    bridge was invoked [k + 1] times, so the statements before it were run and
    those after it were not; and the service, cache included, is as it
    was. *)
Theorem transaction_stops_at_first_failure
    h (e : Connection.InitEnv) (runs : nat → Run)
    (queries : list (string * string)) (s s1 : System) (err : jserror) :
  initialized (service s) = true →
  Service.transaction h e runs queries s = (Reject err, s1) →
  service s1 = service s ∧
  ∃ k sql params wk e0,
    queries !! k = Some (sql, params) ∧
    (Connection.simpleQuery (db s) h sql (runs k) wk).1 = Reject e0 ∧
    err = ServiceError "Transaction failed" (message_of e0)
            "TRANSACTION_ERROR" ∧
    Service.bridge_calls (world s1)
    = (Service.bridge_calls (world s) + S k)%nat.
Proof.
  intros Hi. unfold Service.transaction. rewrite init_initialized by done.
  destruct (Service.transaction_loop _ _ _ _ _ _ _) as [[rs|e0] w'] eqn:Hl;
    [done|].
  apply transaction_loop_rejected in Hl
    as (k & sql & params & wk & Hk & Hr & Hcalls).
  intros [= <- <-]. simpl. split; [done|].
  by exists k, sql, params, wk, e0.
Qed.

Lemma transaction_stops_at_first_failure_witness :
  let queries := [(Sample.tables, "[]"); ("UPDATE t SET a = 1", "[]");
                  (Sample.columns, "[]")] in
  let runs := λ k : nat, match k with
                         | 1%nat => Sample.fails
                         | _ => Sample.prints "[]"
                         end in
  let call := Service.transaction Sample.h Sample.init_env runs queries
                Sample.sys in
  service call.2 = service Sample.sys ∧
  ∃ k sql params wk e0,
    queries !! k = Some (sql, params) ∧
    (Connection.simpleQuery (db Sample.sys) Sample.h sql (runs k) wk).1
    = Reject e0 ∧
    ServiceError "Transaction failed" "ERROR: no such table" "TRANSACTION_ERROR"
    = ServiceError "Transaction failed" (message_of e0) "TRANSACTION_ERROR" ∧
    Service.bridge_calls (world call.2)
    = (Service.bridge_calls (world Sample.sys) + S k)%nat.
Proof.
  intros queries runs call.
  apply (transaction_stops_at_first_failure Sample.h Sample.init_env runs
           queries Sample.sys call.2).
  - reflexivity.
  - by vm_compute.
Defined.



Lemma length_append (a b : string) :
  String.length (a +:+ b) = (String.length a + String.length b)%nat.
Proof. induction a as [|x a IH]; [done|]. simpl. by rewrite IH. Qed.

Lemma append_inv_tail (a b t : string) : a +:+ t = b +:+ t → a = b.
Proof.
  revert b. induction a as [|x a IH]; intros [|y b] H.
  - done.
  - exfalso. apply (f_equal String.length) in H.
    rewrite !length_append in H. simpl in H. lia.
  - exfalso. apply (f_equal String.length) in H.
    rewrite !length_append in H. simpl in H. lia.
  - injection H as -> H. f_equal. by apply IH.
Qed.

(** X12: cache keys keep calls apart: two different statements with the same
    parameters get different keys, so does one statement with two different
    parameter texts; and no key is the empty text, which [clearCache] would
    take for no key at all. *)
Theorem getCacheKey_separates (sql sql' params params' : string) :
  (sql ≠ sql' →
   Service._getCacheKey sql params ≠ Service._getCacheKey sql' params) ∧
  (params ≠ params' →
   Service._getCacheKey sql params ≠ Service._getCacheKey sql params') ∧
  Service._getCacheKey sql params ≠ "".
Proof.
  unfold Service._getCacheKey. repeat split.
  - intros Hne H. by apply append_inv_tail in H.
  - intros Hne H. apply (inj (String.app sql)) in H. by simplify_eq.
  - intros H. apply (f_equal String.length) in H.
    rewrite length_append in H. simpl in H. lia.
Qed.

Lemma getCacheKey_separates_witness :
  Service._getCacheKey Sample.tables "[]"
  ≠ Service._getCacheKey Sample.columns "[]" ∧
  Service._getCacheKey Sample.tables "[]"
  ≠ Service._getCacheKey Sample.tables "[1]" ∧
  Service._getCacheKey Sample.tables "[]" ≠ "".
Proof.
  destruct (getCacheKey_separates Sample.tables Sample.columns "[]" "[1]")
    as (H1 & H2 & H3).
  split; [apply H1; by vm_compute|].
  split; [apply H2; by vm_compute|]. exact H3.
Defined.

(** X13: [queryOne] for a statement with a fresh cached array answers with
    the first element of the array, or with [null] for the empty array, marks
    the answer [fromCache: true], and changes nothing. *)
Theorem queryOne_served_from_cache
    h (e : Service.CallEnv) (sql params : string) (o : Options) (s : System)
    (c : CacheEntry) (l : list value) :
  initialized (service s) = true → caching o →
  cache (service s) !! Service._getCacheKey sql params = Some c →
  Service.now_get e - timestamp c < cacheTimeout (service s) →
  data c = VArray l →
  Service.queryOne h e sql params o s
  = Some (Resolve {| rows := default VNull (head l); fromCache := true |}, s).
Proof.
  intros Hi Ho Hc Hage Hd. unfold Service.queryOne.
  rewrite (query_hit h e sql params o s c) by (try done; by rewrite Hd).
  simpl. rewrite Hd. by destruct l.
Qed.

Lemma queryOne_served_from_cache_witness :
  Service.queryOne Sample.h (Sample.call 500 "") Sample.tables "[]"
    Sample.cached Sample.sys
  = Some (Resolve {| rows := VObject [(units "tabname",
                                      VString (units "customer"))];
                     fromCache := true |}, Sample.sys).
Proof.
  apply (queryOne_served_from_cache Sample.h (Sample.call 500 "")
           Sample.tables "[]" Sample.cached Sample.sys
           {| data := Sample.tables_rows; timestamp := 0 |}
           [VObject [(units "tabname", VString (units "customer"))]]);
    by vm_compute.
Defined.

(** * Further properties of the bridge *)

Section BridgeMore.

Import Connection.

Context (h : Host).

Lemma cleanup_after_compile_fs (op : BridgeOp) (ch : Child) (src : string)
    (w : World) :
  fs w !! javaFile h op = Some (Text src) →
  code ch = 0 →
  fs (cleanup (javaFile h op) (classFile h op) (compile_closed h op ch w).2)
  = delete (classFile h op) (delete (javaFile h op) (fs w)).
Proof.
  intros Hsrc Hcode. unfold compile_closed, compiled.
  rewrite Hsrc, Hcode. simpl.
  unfold cleanup, unlinkSync. simpl.
  rewrite lookup_insert_ne by (apply not_eq_sym, javaFile_classFile).
  rewrite Hsrc. simpl.
  rewrite lookup_delete_ne by (apply javaFile_classFile).
  rewrite lookup_insert_eq. simpl.
  rewrite delete_insert_ne by (apply javaFile_classFile).
  by rewrite delete_insert_eq.
Qed.

Lemma bridge_call_fs (op : BridgeOp) db (sql : string) (r : Run) (w : World) :
  code (javac r) = 0 →
  fs (cleanup (javaFile h op) (classFile h op)
        (compile_closed h op (javac r) (started db h op sql w)).2)
  = delete (classFile h op) (delete (javaFile h op) (fs w)).
Proof.
  intros Hcode.
  rewrite (cleanup_after_compile_fs op (javac r) (javaCode db h op sql))
    by (done || apply started_source).
  simpl. by rewrite delete_insert_eq.
Qed.

End BridgeMore.

(** X14: after a bridge call whose compilation succeeded, whether the run
    succeeded or not and whatever it printed, the files are those from before
    the call without the source file and the class file of the operation:
    both are removed, also when they were there before the call, and no other
    file is touched. *)
Theorem bridge_call_restores_directory
    h db (sql : string) (r : Run) (w : World) :
  code (javac r) = 0 →
  fs (Connection.simpleQuery db h sql r w).2
  = delete (Connection.classFile h Connection.SimpleQuery)
      (delete (Connection.javaFile h Connection.SimpleQuery) (fs w)) ∧
  fs (Connection.execute db h sql r w).2
  = delete (Connection.classFile h Connection.Execute)
      (delete (Connection.javaFile h Connection.Execute) (fs w)).
Proof.
  intros Hcode. split.
  - pose proof (bridge_call_fs h Connection.SimpleQuery db sql r w Hcode) as Hfs.
    unfold Connection.simpleQuery.
    destruct (Connection.compile_closed _ _ _ _) as [[e|] w1] eqn:E.
    + unfold Connection.compile_closed in E. rewrite Hcode in E. discriminate.
    + simpl in Hfs. unfold Connection.simpleQuery_closed.
      repeat case_match; exact Hfs.
  - pose proof (bridge_call_fs h Connection.Execute db sql r w Hcode) as Hfs.
    unfold Connection.execute.
    destruct (Connection.compile_closed _ _ _ _) as [[e|] w1] eqn:E.
    + unfold Connection.compile_closed in E. rewrite Hcode in E. discriminate.
    + simpl in Hfs. unfold Connection.execute_closed.
      repeat case_match; exact Hfs.
Qed.

Lemma bridge_call_restores_directory_witness :
  fs (Connection.simpleQuery Sample.conn Sample.h Sample.tables Sample.fails
        Sample.w0).2
  = delete (Connection.classFile Sample.h Connection.SimpleQuery)
      (delete (Connection.javaFile Sample.h Connection.SimpleQuery)
         (fs Sample.w0)) ∧
  fs (Connection.execute Sample.conn Sample.h Sample.tables Sample.fails
        Sample.w0).2
  = delete (Connection.classFile Sample.h Connection.Execute)
      (delete (Connection.javaFile Sample.h Connection.Execute)
         (fs Sample.w0)).
Proof.
  apply (bridge_call_restores_directory Sample.h Sample.conn Sample.tables
           Sample.fails Sample.w0).
  reflexivity.
Defined.

(** X15: when the compiled program exits with a code other than 0, or its
    standard error contains [ERROR:], [simpleQuery] and [execute] reject with
    the text of the standard error (with [Query failed] and [Execute failed]
    when it is empty), whatever the program printed: rows on the standard
    output are discarded, also at exit code 0. *)
Theorem run_failure_discards_output
    h db (sql : string) (r : Run) (w : World) :
  code (javac r) = 0 →
  code (java r) ≠ 0 ∨ includes (stderr (java r)) "ERROR:" = true →
  (Connection.simpleQuery db h sql r w).1
  = Reject (Error (str_or (stderr (java r)) "Query failed")) ∧
  (Connection.execute db h sql r w).1
  = Reject (Error (str_or (stderr (java r)) "Execute failed")).
Proof.
  intros Hc Hbad.
  assert (negb (code (java r) =? 0) || includes (stderr (java r)) "ERROR:"
          = true) as Hb.
  { destruct Hbad as [Hne%Z.eqb_neq | ->]; [by rewrite Hne | by rewrite orb_true_r]. }
  unfold Connection.simpleQuery, Connection.execute, Connection.compile_closed.
  rewrite Hc. simpl.
  unfold Connection.simpleQuery_closed, Connection.execute_closed.
  by rewrite Hb.
Qed.

Lemma run_failure_discards_output_witness :
  let r := {| javac := Sample.ok "";
              java := {| code := 0; stdout := Sample.tables_output;
                         stderr := "WARN pool ERROR: retrying" |} |} in
  (Connection.simpleQuery Sample.conn Sample.h Sample.tables r Sample.w0).1
  = Reject (Error "WARN pool ERROR: retrying") ∧
  (Connection.execute Sample.conn Sample.h Sample.tables r Sample.w0).1
  = Reject (Error "WARN pool ERROR: retrying").
Proof.
  intros r.
  apply (run_failure_discards_output Sample.h Sample.conn Sample.tables r
           Sample.w0).
  - reflexivity.
  - right. by vm_compute.
Defined.

(** X16: for a statement without line terminators, the program generated for
    either operation is the head of the template, a Java string literal and
    the tail of the template, and the literal denotes exactly the statement:
    the quotes and backslashes of the statement survive the escaping. *)
Theorem javaCode_embeds_statement
    h db (op : Connection.BridgeOp) (sql : string) :
  line_free sql = true →
  let head := match op with
              | Connection.SimpleQuery => Connection.simpleQuery_head db h
              | Connection.Execute => Connection.execute_head db h
              end in
  let tail := match op with
              | Connection.SimpleQuery => Connection.simpleQuery_tail
              | Connection.Execute => Connection.execute_tail
              end in
  Connection.javaCode db h op sql
  = head +:+ (q +:+ Connection.escapeSql sql +:+ q +:+ tail) ∧
  Java.string_literal (q +:+ Connection.escapeSql sql +:+ q +:+ tail)
  = Java.Literal sql tail.
Proof.
  intros Hlf. destruct op; lazy beta iota zeta.
  - split; [reflexivity | by apply embedded_literal].
  - split; [reflexivity | by apply embedded_literal].
Qed.

Lemma javaCode_embeds_statement_witness :
  let sql := dquoted "SELECT 'it''s', 'C:\dir' FROM t WHERE 'name' = 'x'" in
  Connection.javaCode Sample.conn Sample.h Connection.Execute sql
  = Connection.execute_head Sample.conn Sample.h
    +:+ (q +:+ Connection.escapeSql sql +:+ q +:+ Connection.execute_tail) ∧
  Java.string_literal
    (q +:+ Connection.escapeSql sql +:+ q +:+ Connection.execute_tail)
  = Java.Literal sql Connection.execute_tail.
Proof.
  intros sql.
  apply (javaCode_embeds_statement Sample.h Sample.conn Connection.Execute sql).
  reflexivity.
Defined.

(** X17: initialising a connection that is not initialised always records the
    JDBC URL; it resolves exactly when Java is found and the connection test
    resolves, and sets [isInitialized] only then; without Java it fails with
    [Java is not installed or not in PATH] and the bridge is not invoked, with
    Java the bridge is invoked once and a failing test is reported as
    [Connection test failed: ] and the message of its error. *)
Theorem initialize_outcomes h db (e : Connection.InitEnv) (w : World) :
  isInitialized db = false →
  let db1 := {| isInitialized := false;
                jdbcUrl := Some (Connection.buildJdbcUrl h) |} in
  let test := (Connection.simpleQuery db1 h "SELECT FIRST 1 1 FROM systables"
                 (Connection.test_run e)
                 (spawn "java -version" [] w)).1 in
  let out := Connection.initialize db h e w in
  jdbcUrl out.1.2 = Some (Connection.buildJdbcUrl h) ∧
  out.1.1
  = (if Connection.java_found e
     then match test with
          | Resolve _ => Resolve tt
          | Reject err =>
              Reject (Error ("Connection test failed: " +:+ message_of err))
          end
     else Reject (Error "Java is not installed or not in PATH")) ∧
  isInitialized out.1.2
  = (Connection.java_found e &&
     match test with Resolve _ => true | Reject _ => false end) ∧
  Service.bridge_calls out.2
  = ((if Connection.java_found e then 1 else 0) + Service.bridge_calls w)%nat.
Proof.
  intros Hdb db1 test out. subst out test.
  unfold Connection.initialize. rewrite Hdb. fold db1.
  destruct (Connection.java_found e); cbn [negb andb]; [|done].
  pose proof (simpleQuery_bridge_calls h db1
                "SELECT FIRST 1 1 FROM systables" (Connection.test_run e)
                (spawn "java -version" [] w)) as Hn.
  unfold Connection.testConnection.
  destruct (Connection.simpleQuery _ _ _ _ _) as [[v|err] w2];
    cbn [fst snd jdbcUrl isInitialized] in *; by rewrite Hn.
Qed.

Lemma initialize_outcomes_witness :
  let e := {| Connection.java_found := true;
              Connection.test_run := Sample.fails |} in
  let db1 := {| isInitialized := false;
                jdbcUrl := Some (Connection.buildJdbcUrl Sample.h) |} in
  let test := (Connection.simpleQuery db1 Sample.h
                 "SELECT FIRST 1 1 FROM systables" (Connection.test_run e)
                 (spawn "java -version" [] Sample.w0)).1 in
  let out := Connection.initialize Connection.constructor Sample.h e
               Sample.w0 in
  jdbcUrl out.1.2 = Some (Connection.buildJdbcUrl Sample.h) ∧
  out.1.1
  = (if Connection.java_found e
     then match test with
          | Resolve _ => Resolve tt
          | Reject err =>
              Reject (Error ("Connection test failed: " +:+ message_of err))
          end
     else Reject (Error "Java is not installed or not in PATH")) ∧
  isInitialized out.1.2
  = (Connection.java_found e &&
     match test with Resolve _ => true | Reject _ => false end) ∧
  Service.bridge_calls out.2
  = ((if Connection.java_found e then 1 else 0)
     + Service.bridge_calls Sample.w0)%nat.
Proof.
  intros e.
  apply (initialize_outcomes Sample.h Connection.constructor e Sample.w0).
  reflexivity.
Defined.

(** X18: the variant [query], which talks to its child over the standard
    input, never rejects when the child exits with code 0: it resolves with
    the parsed standard output, and with the empty array when the output is
    empty or cannot be parsed, whatever the standard error holds. *)
Theorem legacy_query_decodes_leniently
    h (sql params : string) (c : Child) (w : World) :
  code c = 0 →
  (Connection.query h sql params c w).1
  = Resolve (default (VArray []) (JSON_parse (stdout c))).
Proof.
  intros Hc. unfold Connection.query. rewrite Hc. simpl.
  destruct (stdout c) as [|a out] eqn:Hout; simpl.
  - reflexivity.
  - by destruct (JSON_parse (String a out)).
Qed.

Lemma legacy_query_decodes_leniently_witness :
  (Connection.query Sample.h Sample.tables "[]"
     {| code := 0; stdout := "oops"; stderr := "ERROR: no such table" |}
     Sample.w0).1
  = Resolve (default (VArray []) (JSON_parse "oops")).
Proof.
  apply (legacy_query_decodes_leniently Sample.h Sample.tables "[]"
           {| code := 0; stdout := "oops"; stderr := "ERROR: no such table" |}).
  reflexivity.
Defined.

(** * Properties of the routes *)

Section RoutesMore.

Import Routes.






















End RoutesMore.

Section DataRoutes.

Import Routes.

Lemma invalid_column_None (members : list (string * field)) :
  forallb (λ m, is_identifier m.1) members = true →
  invalid_column members = None.
Proof.
  unfold invalid_column. induction members as [|m l IH]; [done|]. simpl.
  intros [Hm Hl]%andb_prop. rewrite Hm. simpl. by apply IH.
Qed.

Lemma invalid_column_Some (members : list (string * field)) :
  forallb (λ m, is_identifier m.1) members = false →
  ∃ col, invalid_column members = Some col.
Proof.
  unfold invalid_column. induction members as [|m l IH]; [done|]. simpl.
  destruct (is_identifier m.1); simpl; [apply IH | by eexists].
Qed.

End DataRoutes.

Section Gate.

Import Routes.

Context (h : Host) (e : Service.CallEnv) (t : string) (s : System).

Lemma post_data_gate (data : list (string * field)) :
  if names_valid t data && nonempty data
  then post_data h e t data s
       = answered 201 "Record inserted successfully" t "INSERT_ERROR"
           (Service.execute h e (insert_sql t data) s)
  else turned_down (post_data h e t data s) s.
Proof.
  unfold names_valid, post_data.
  destruct (is_identifier t); simpl; [|done].
  destruct data as [|m data]; [by rewrite andb_false_r|].
  rewrite andb_true_r.
  destruct (forallb _ (m :: data)) eqn:Hf.
  - by rewrite invalid_column_None.
  - by destruct (invalid_column_Some _ Hf) as [col ->].
Qed.

Lemma put_data_gate (data where_ : list (string * field)) :
  if names_valid t (data ++ where_) && nonempty data && nonempty where_
  then put_data h e t data where_ s
       = answered 200 "Record(s) updated successfully" t "UPDATE_ERROR"
           (Service.execute h e (update_sql t data where_) s)
  else turned_down (put_data h e t data where_ s) s.
Proof.
  unfold names_valid, put_data.
  destruct (is_identifier t); simpl; [|done].
  destruct data as [|m data]; [by rewrite andb_false_r|].
  destruct where_ as [|m' where_]; [by rewrite andb_false_r|].
  rewrite !andb_true_r.
  destruct (forallb _ ((m :: data) ++ m' :: where_)) eqn:Hf.
  - by rewrite invalid_column_None.
  - by destruct (invalid_column_Some _ Hf) as [col ->].
Qed.

Lemma delete_data_gate (where_ : list (string * field)) :
  if names_valid t where_ && nonempty where_
  then delete_data h e t where_ s
       = answered 200 "Record(s) deleted successfully" t "DELETE_ERROR"
           (Service.execute h e (delete_sql t where_) s)
  else turned_down (delete_data h e t where_ s) s.
Proof.
  unfold names_valid, delete_data.
  destruct (is_identifier t); simpl; [|done].
  destruct where_ as [|m' where_]; [by rewrite andb_false_r|].
  rewrite andb_true_r.
  destruct (forallb _ (m' :: where_)) eqn:Hf.
  - by rewrite invalid_column_None.
  - by destruct (invalid_column_Some _ Hf) as [col ->].
Qed.

Lemma names_valid_app (data where_ : list (string * field)) :
  names_valid t (data ++ where_)
  = names_valid t data && names_valid t where_.
Proof.
  unfold names_valid. rewrite forallb_app.
  destruct (is_identifier t); simpl; [done|]. done.
Qed.

End Gate.


(** X20: when the bridge rejects the statement of a valid insert, update or
    delete request, the answer has status 500, the code of the route, and the
    error text [Execute failed]: the message of the database does not reach
    the client. *)
Theorem data_routes_hide_database_error
    h (e : Service.CallEnv) (t : string)
    (data where_ : list (string * Routes.field)) (s : System)
    (sql code : string) (out : Routes.response * System)
    (err : jserror) (w' : World) :
  names_valid t (data ++ where_) = true → data ≠ [] → where_ ≠ [] →
  initialized (service s) = true →
  In (sql, code, out)
    [(Routes.insert_sql t data, "INSERT_ERROR", Routes.post_data h e t data s);
     (Routes.update_sql t data where_, "UPDATE_ERROR",
      Routes.put_data h e t data where_ s);
     (Routes.delete_sql t where_, "DELETE_ERROR",
      Routes.delete_data h e t where_ s)] →
  Connection.execute (db s) h sql (Service.run e) (world s) = (Reject err, w') →
  out = ({| Routes.status := 500;
            Routes.content := Routes.ErrorBody "Execute failed" code |},
         {| service := service s; db := db s; world := w' |}).
Proof.
  intros Hv Hd Hw Hi Hin Hex.
  pose proof (post_data_gate h e t s data) as Hpost.
  pose proof (put_data_gate h e t s data where_) as Hput.
  pose proof (delete_data_gate h e t s where_) as Hdel.
  rewrite Hv in Hput. rewrite names_valid_app in Hv.
  apply andb_prop in Hv as [Hvd Hvw]. rewrite Hvd in Hpost. rewrite Hvw in Hdel.
  destruct data as [|m data]; [done|]. destruct where_ as [|m' where_]; [done|].
  cbn [nonempty andb] in Hpost, Hput, Hdel.
  destruct Hin as [H | [H | [H | []]]]; injection H as <- <- <-.
  - rewrite Hpost, (execute_rejected h e _ s err w' Hi Hex). reflexivity.
  - rewrite Hput, (execute_rejected h e _ s err w' Hi Hex). reflexivity.
  - rewrite Hdel, (execute_rejected h e _ s err w' Hi Hex). reflexivity.
Qed.

Lemma data_routes_hide_database_error_witness :
  let e := {| Service.at_init := Sample.init_env; Service.now_get := 500;
              Service.run := Sample.fails; Service.now_set := 540 |} in
  let data := [("total", Routes.FNumber 12)] in
  let where_ := [("id", Routes.FNumber 7)] in
  Routes.put_data Sample.h e "orders" data where_ Sample.sys
  = ({| Routes.status := 500;
        Routes.content := Routes.ErrorBody "Execute failed" "UPDATE_ERROR" |},
     {| service := service Sample.sys; db := db Sample.sys;
        world := (Connection.execute Sample.conn Sample.h
                    (Routes.update_sql "orders" data where_) Sample.fails
                    Sample.w0).2 |}).
Proof.
  intros e data where_.
  apply (data_routes_hide_database_error Sample.h e "orders" data where_
           Sample.sys (Routes.update_sql "orders" data where_) "UPDATE_ERROR"
           (Routes.put_data Sample.h e "orders" data where_ Sample.sys)
           (Error "ERROR: no such table")).
  - reflexivity.
  - discriminate.
  - discriminate.
  - reflexivity.
  - right. left. reflexivity.
  - by vm_compute.
Defined.



Lemma sql_string_characters_quoted (s rest : string) :
  starts_with "'" rest = None →
  sql_string_characters (replace_all "'" "''" s +:+ String "'" rest)
  = Some (s, rest).
Proof.
  intros Hrest. induction s as [|c s IH].
  - rewrite append_nil_l. simpl.
    destruct rest as [|c' rest']; [done|].
    simpl in Hrest. by destruct (Ascii.eqb c' "'").
  - simpl. destruct (Ascii.eqb_spec c "'"%char) as [->|Hne].
    + rewrite append_assoc, !append_cons, append_nil_l. simpl. by rewrite IH.
    + rewrite append_cons. simpl.
      apply Ascii.eqb_neq in Hne. by rewrite Hne, IH.
Qed.

(** X22: a text value as the data routes quote it, followed by anything that
    does not begin with a quote, reads as one SQL character string literal
    whose value is exactly the text and which ends where the routes closed
    it: no quote inside a value ends the literal early. *)
Theorem quote_text_reads_back (s rest : string) :
  starts_with "'" rest = None →
  sql_string_literal (Routes.quote_text s +:+ rest) = Some (s, rest).
Proof.
  intros Hrest. unfold Routes.quote_text, sql_string_literal.
  rewrite !append_cons, !append_nil_l, append_assoc, append_cons, append_nil_l.
  simpl. by apply sql_string_characters_quoted.
Qed.

Lemma quote_text_reads_back_witness :
  sql_string_literal (Routes.quote_text "O'Brien ''x''" +:+ ", 41)")
  = Some ("O'Brien ''x''", ", 41)").
Proof.
  apply (quote_text_reads_back "O'Brien ''x''" ", 41)"). reflexivity.
Defined.

(** * Properties of the guards *)

Section Guards.

Import Routes.

Ltac by_character a := destruct a as [[] [] [] [] [] [] [] []]; reflexivity.

Lemma upper_S (a : ascii) (r : string) (w : list N) :
  startsWith (toUpperCase (String a r)) (83 :: 69 :: w)%N
  = Ascii.eqb (ascii_upper a) "S" && startsWith (toUpperCase r) (69 :: w)%N.
Proof. by_character a. Qed.

Lemma upper_letter (u a : ascii) (r : string) (w : list N) :
  In u (list_ascii_of_string "ELCTINRUPDA") →
  startsWith (toUpperCase (String a r)) (N_of_ascii u :: w)
  = Ascii.eqb (ascii_upper a) u && startsWith (toUpperCase r) w.
Proof.
  simpl. intros Hu.
  repeat (destruct Hu as [<- | Hu]; [by_character a|]). done.
Qed.

Ltac peel s :=
  destruct s as [|? s]; [reflexivity|];
  first [ rewrite upper_S
        | rewrite (upper_letter "E") by (simpl; tauto)
        | rewrite (upper_letter "L") by (simpl; tauto)
        | rewrite (upper_letter "C") by (simpl; tauto)
        | rewrite (upper_letter "T") by (simpl; tauto)
        | rewrite (upper_letter "I") by (simpl; tauto)
        | rewrite (upper_letter "N") by (simpl; tauto)
        | rewrite (upper_letter "R") by (simpl; tauto)
        | rewrite (upper_letter "U") by (simpl; tauto)
        | rewrite (upper_letter "P") by (simpl; tauto)
        | rewrite (upper_letter "D") by (simpl; tauto)
        | rewrite (upper_letter "A") by (simpl; tauto) ];
  cbn [ci_prefix]; f_equal.

Lemma startsWith_SELECT (s : string) :
  startsWith (toUpperCase s) (units "SELECT") = ci_prefix "SELECT" s.
Proof.
  change (units "SELECT") with [83; 69; 76; 69; 67; 84]%N.
  change 84%N with (N_of_ascii "T"). change 67%N with (N_of_ascii "C").
  change 76%N with (N_of_ascii "L").
  peel s.
  change 69%N with (N_of_ascii "E").
  peel s. peel s. peel s. peel s. peel s.
  by destruct (toUpperCase s).
Qed.

Lemma startsWith_INSERT (s : string) :
  startsWith (toUpperCase s) (units "INSERT") = ci_prefix "INSERT" s.
Proof.
  change (units "INSERT") with [73; 78; 83; 69; 82; 84]%N.
  change 84%N with (N_of_ascii "T"). change 82%N with (N_of_ascii "R").
  change 73%N with (N_of_ascii "I"). change 78%N with (N_of_ascii "N").
  peel s. peel s. peel s.
  change 69%N with (N_of_ascii "E").
  peel s. peel s. peel s.
  by destruct (toUpperCase s).
Qed.

Lemma startsWith_UPDATE (s : string) :
  startsWith (toUpperCase s) (units "UPDATE") = ci_prefix "UPDATE" s.
Proof.
  change (units "UPDATE") with
    [N_of_ascii "U"; N_of_ascii "P"; N_of_ascii "D"; N_of_ascii "A";
     N_of_ascii "T"; N_of_ascii "E"].
  peel s. peel s. peel s. peel s. peel s. peel s.
  by destruct (toUpperCase s).
Qed.

Lemma startsWith_DELETE (s : string) :
  startsWith (toUpperCase s) (units "DELETE") = ci_prefix "DELETE" s.
Proof.
  change (units "DELETE") with
    [N_of_ascii "D"; N_of_ascii "E"; N_of_ascii "L"; N_of_ascii "E";
     N_of_ascii "T"; N_of_ascii "E"].
  peel s. peel s. peel s. peel s. peel s. peel s.
  by destruct (toUpperCase s).
Qed.

(** *** [trim] *)

Lemma rev_app_spec (s acc : string) :
  String.rev_app s acc = String.rev s +:+ acc.
Proof.
  unfold String.rev. revert acc.
  induction s as [|c r IH]; intros acc; [done|]. simpl.
  rewrite (IH (String c "")), (IH (String c acc)).
  by rewrite append_assoc.
Qed.

Lemma rev_cons (c : ascii) (r : string) :
  String.rev (String c r) = String.rev r +:+ String c "".
Proof. unfold String.rev at 1. simpl. apply rev_app_spec. Qed.

Lemma append_nil_r (s : string) : s +:+ "" = s.
Proof. induction s as [|c r IH]; [done|]. by rewrite append_cons, IH. Qed.

Lemma rev_snoc (s : string) (c : ascii) :
  String.rev (s +:+ String c "") = String c (String.rev s).
Proof.
  induction s as [|a r IH]; [done|].
  rewrite append_cons, !rev_cons, IH. by rewrite append_cons.
Qed.

Lemma trimStart_app_empty (a b : string) :
  trimStart a = "" → trimStart (a +:+ b) = trimStart b.
Proof.
  induction a as [|c r IH]; [done|]. rewrite append_cons. simpl.
  destruct (is_trim_space c); [exact IH | done].
Qed.

Lemma trimStart_app_nonempty (a b : string) :
  trimStart a ≠ "" → trimStart (a +:+ b) = trimStart a +:+ b.
Proof.
  induction a as [|c r IH]; [done|]. rewrite append_cons. simpl.
  destruct (is_trim_space c); [exact IH | done].
Qed.

(** A character that is not white space stays at the head. *)
Lemma trimEnd_cons (c : ascii) (r : string) :
  is_trim_space c = false → trimEnd (String c r) = String c (trimEnd r).
Proof.
  intros Hc. unfold trimEnd. rewrite rev_cons.
  destruct (trimStart (String.rev r)) as [|x y] eqn:Hr.
  - rewrite trimStart_app_empty by done. simpl. by rewrite Hc.
  - rewrite trimStart_app_nonempty by (by rewrite Hr).
    rewrite Hr. by rewrite rev_snoc.
Qed.

(** White space at the head is gone or stays at the head. *)
Lemma trimEnd_space_head (c : ascii) (r : string) :
  is_trim_space c = true →
  trimEnd (String c r) = "" ∨ ∃ r', trimEnd (String c r) = String c r'.
Proof.
  intros Hc. unfold trimEnd. rewrite rev_cons.
  destruct (trimStart (String.rev r)) as [|x y] eqn:Hr.
  - rewrite trimStart_app_empty by done. simpl. rewrite Hc. by left.
  - rewrite trimStart_app_nonempty by (by rewrite Hr).
    rewrite Hr, rev_snoc. right. by eexists.
Qed.

Lemma upper_of_space (a : ascii) :
  is_trim_space a = true → ascii_upper a = a.
Proof. destruct a as [[] [] [] [] [] [] [] []]; by vm_compute. Qed.

Lemma ci_prefix_trimEnd (word x : string) :
  all_chars (λ u, negb (is_trim_space u)) word = true →
  ci_prefix word (trimEnd x) = ci_prefix word x.
Proof.
  revert x. induction word as [|u w IH]; intros x Hw; [done|].
  simpl in Hw. apply andb_prop in Hw as [Hu Hw]. apply negb_true_iff in Hu.
  destruct x as [|a r]; [done|].
  destruct (is_trim_space a) eqn:Ha.
  - assert (Ascii.eqb (ascii_upper a) u = false) as Hne.
    { rewrite (upper_of_space a Ha). apply Ascii.eqb_neq. by intros ->;
        rewrite Ha in Hu. }
    destruct (trimEnd_space_head a r Ha) as [-> | [r' ->]]; simpl;
      by rewrite Hne.
  - rewrite trimEnd_cons by done. simpl. by rewrite IH.
Qed.

Lemma ci_prefix_app (word x t : string) :
  ci_prefix word x = true → ci_prefix word (x +:+ t) = true.
Proof.
  revert x. induction word as [|u w IH]; intros x; [done|].
  destruct x as [|a r]; [done|]. rewrite append_cons. simpl.
  intros [-> Hr]%andb_prop. by rewrite IH.
Qed.

Lemma ci_prefix_other (u v : ascii) (w w' x : string) :
  u ≠ v → ci_prefix (String u w) x = true → ci_prefix (String v w') x = false.
Proof.
  intros Hne. destruct x as [|a r]; [done|]. cbn [ci_prefix].
  intros [Ha _]%andb_prop. apply Ascii.eqb_eq in Ha. subst u.
  apply andb_false_iff. left. by apply Ascii.eqb_neq.
Qed.

Lemma trimmedSql_prefix (word sql : string) :
  all_chars (λ u, negb (is_trim_space u)) word = true →
  ci_prefix word (trim sql) = ci_prefix word (trimStart sql).
Proof. intros Hw. unfold trim. by apply ci_prefix_trimEnd. Qed.

End Guards.

Lemma select_only_prefix (sql : string) :
  Routes.select_only sql = ci_prefix "SELECT" (trimStart sql).
Proof.
  unfold Routes.select_only, Routes.trimmedSql.
  rewrite startsWith_SELECT. by apply trimmedSql_prefix.
Qed.

Lemma operation_prefix (sql : string) :
  Routes.operation sql
  = find (λ op, ci_prefix op (trimStart sql)) Routes.allowedOperations.
Proof.
  unfold Routes.operation, Routes.trimmedSql, Routes.allowedOperations.
  simpl.
  rewrite startsWith_INSERT, startsWith_UPDATE, startsWith_DELETE.
  by rewrite !trimmedSql_prefix.
Qed.


(** X24: a statement that passes the test of [POST /query] passes it with
    anything appended, a second statement included, and is turned down by the
    test of [POST /execute]. *)
Theorem select_guard_ignores_the_rest (sql rest : string) :
  Routes.select_only sql = true →
  Routes.select_only (sql +:+ rest) = true ∧ Routes.operation sql = None.
Proof.
  rewrite !select_only_prefix, !operation_prefix. intros Hp.
  rewrite trimStart_app_nonempty
    by (intros He; rewrite He in Hp; discriminate).
  split; [by apply ci_prefix_app|].
  unfold Routes.allowedOperations. cbn [find].
  rewrite (ci_prefix_other "S" "I" "ELECT" "NSERT" _ ltac:(done) Hp).
  rewrite (ci_prefix_other "S" "U" "ELECT" "PDATE" _ ltac:(done) Hp).
  by rewrite (ci_prefix_other "S" "D" "ELECT" "ELETE" _ ltac:(done) Hp).
Qed.

Lemma select_guard_ignores_the_rest_witness :
  Routes.select_only ("  select 1 FROM systables; " +:+ "DROP TABLE orders")
  = true ∧
  Routes.operation "  select 1 FROM systables; " = None.
Proof.
  apply (select_guard_ignores_the_rest "  select 1 FROM systables; "
           "DROP TABLE orders").
  by vm_compute.
Defined.

(** X25: a statement for which the test of [POST /execute] finds an
    operation begins with one of the three allowed words, keeps that
    operation with anything appended, and is turned down by the test of
    [POST /query]. *)
Theorem operation_guard_ignores_the_rest (sql rest op : string) :
  Routes.operation sql = Some op →
  In op Routes.allowedOperations ∧
  Routes.operation (sql +:+ rest) = Some op ∧
  Routes.select_only sql = false.
Proof.
  rewrite !select_only_prefix, !operation_prefix.
  assert (∀ word, word ≠ "" → ci_prefix word (trimStart sql) = true →
            trimStart (sql +:+ rest) = trimStart sql +:+ rest) as Happ.
  { intros word Hw Hp. apply trimStart_app_nonempty.
    intros He. rewrite He in Hp. by destruct word. }
  unfold Routes.allowedOperations. cbn [find].
  destruct (ci_prefix "INSERT" (trimStart sql)) eqn:Hi.
  { intros [= <-]. rewrite (Happ "INSERT") by done.
    rewrite (ci_prefix_app _ _ _ Hi).
    split; [by left|]. split; [done|].
    by apply (ci_prefix_other "I" "S" "NSERT" "ELECT" _ ltac:(done) Hi). }
  destruct (ci_prefix "UPDATE" (trimStart sql)) eqn:Hu.
  { intros [= <-]. rewrite (Happ "UPDATE") by done.
    pose proof (ci_prefix_app _ _ rest Hu) as Hu'.
    rewrite (ci_prefix_other "U" "I" "PDATE" "NSERT" _ ltac:(done) Hu').
    rewrite Hu'.
    split; [by right; left|]. split; [done|].
    by apply (ci_prefix_other "U" "S" "PDATE" "ELECT" _ ltac:(done) Hu). }
  destruct (ci_prefix "DELETE" (trimStart sql)) eqn:Hd; [|done].
  intros [= <-]. rewrite (Happ "DELETE") by done.
  pose proof (ci_prefix_app _ _ rest Hd) as Hd'.
  rewrite (ci_prefix_other "D" "I" "ELETE" "NSERT" _ ltac:(done) Hd').
  rewrite (ci_prefix_other "D" "U" "ELETE" "PDATE" _ ltac:(done) Hd').
  rewrite Hd'.
  split; [by right; right; left|]. split; [done|].
  by apply (ci_prefix_other "D" "S" "ELETE" "ELECT" _ ltac:(done) Hd).
Qed.

Lemma operation_guard_ignores_the_rest_witness :
  In "DELETE" Routes.allowedOperations ∧
  Routes.operation ("delete from orders" +:+ "; SELECT 1") = Some "DELETE" ∧
  Routes.select_only "delete from orders" = false.
Proof.
  apply (operation_guard_ignores_the_rest "delete from orders" "; SELECT 1"
           "DELETE").
  by vm_compute.
Defined.
